(** * SVG panel generator: layout, colour and layer engine

    A shallow embedding of the TypeScript sources
    [panelLayout.ts] (grid), [textFit.ts] (label fitting), [svgParse.ts]
    (document parser), [panelSvg.ts] (colour normaliser, style resolver,
    layer transform, ornament-hole and round-backer heuristics, panel
    composer), [pathUtils.ts] (paths), [exportPanels.ts] (export file
    names) and [fsScan.ts] (folder scan), followed by the properties of the
    design document that were checked against them and by further
    properties read off the code.

    Conventions of the embedding.
    - A JavaScript string is a [string]: a sequence of code units below 256.
    - A JavaScript number is an exact rational [Q]; the places where the code
      tests [Number.isFinite] or catches an exception take an [option].
    - The DOM is a tree of [node]s.  Everything the browser computes
      (XML parsing, serialisation, bounding boxes, number parsing and
      printing, text metrics) is a field of the record [Host]; the code of
      the repository is written over an arbitrary [Host]. *)

From Stdlib Require Import Ascii String ZArith NArith QArith Qabs Qround Qminmax Lqa Lia.
From stdpp Require Import base option list strings gmap.

Local Open Scope string_scope.
Local Open Scope list_scope.

#[local] Set Warnings "-register-all".

(** ** Characters and strings *)

Module Str.

Definition code (c : ascii) : N := Ascii.N_of_ascii c.

(** [WhiteSpace] and [LineTerminator] code units below 256: what
    [String.prototype.trim] strips and the regular expression class [\s]
    matches. *)
Definition isSpace (c : ascii) : bool :=
  let n := code c in
  ((9 <=? n) && (n <=? 13) || (n =? 32) || (n =? 160))%N.

Definition isDigit (c : ascii) : bool :=
  let n := code c in ((48 <=? n) && (n <=? 57))%N.

(** [0-9a-f] *)
Definition isHexLower (c : ascii) : bool :=
  let n := code c in
  ((48 <=? n) && (n <=? 57) || (97 <=? n) && (n <=? 102))%N.

(** [0-9a-f] under the [i] flag *)
Definition isHexAny (c : ascii) : bool :=
  let n := code c in
  ((48 <=? n) && (n <=? 57) || (97 <=? n) && (n <=? 102)
   || (65 <=? n) && (n <=? 70))%N.

(** [a-zA-Z0-9_-] *)
Definition isClassChar (c : ascii) : bool :=
  let n := code c in
  ((48 <=? n) && (n <=? 57) || (97 <=? n) && (n <=? 122)
   || (65 <=? n) && (n <=? 90) || (n =? 95) || (n =? 45))%N.

(** One code unit of [String.prototype.toLowerCase]. *)
Definition lowerChar (c : ascii) : ascii :=
  let n := code c in
  if ((65 <=? n) && (n <=? 90)
      || (192 <=? n) && (n <=? 222) && negb (n =? 215))%N
  then Ascii.ascii_of_N (n + 32) else c.

Fixpoint toLowerCase (s : string) : string :=
  match s with
  | EmptyString => EmptyString
  | String c r => String (lowerChar c) (toLowerCase r)
  end.

Fixpoint trimStart (s : string) : string :=
  match s with
  | EmptyString => EmptyString
  | String c r => if isSpace c then trimStart r else s
  end.

(** Drops the trailing white space: a character is kept when something
    that is kept follows it, or when it is not white space itself. *)
Fixpoint trimEnd (s : string) : string :=
  match s with
  | EmptyString => EmptyString
  | String c r =>
      match trimEnd r with
      | EmptyString => if isSpace c then EmptyString else String c EmptyString
      | r' => String c r'
      end
  end.

Definition trim (s : string) : string := trimEnd (trimStart s).

(** JavaScript truthiness of a string. *)
Definition truthy (s : string) : bool :=
  match s with EmptyString => false | _ => true end.

(** [s || d] on strings. *)
Definition orElse (s : option string) (d : string) : string :=
  match s with
  | Some (String c r) => String c r
  | _ => d
  end.

Fixpoint startsWith (p s : string) : bool :=
  match p, s with
  | EmptyString, _ => true
  | String a p', String b s' => if Ascii.eqb a b then startsWith p' s' else false
  | String _ _, EmptyString => false
  end.

(** [startsWith] under the [i] flag; [p] is given in lower case. *)
Fixpoint startsWithCI (p s : string) : bool :=
  match p, s with
  | EmptyString, _ => true
  | String a p', String b s' =>
      if Ascii.eqb a (lowerChar b) then startsWithCI p' s' else false
  | String _ _, EmptyString => false
  end.

Fixpoint drop (n : nat) (s : string) : string :=
  match n, s with
  | O, _ => s
  | S n', String _ r => drop n' r
  | S _, EmptyString => EmptyString
  end.

Fixpoint skipSpaces (s : string) : string :=
  match s with
  | String c r => if isSpace c then skipSpaces r else s
  | EmptyString => EmptyString
  end.

(** The longest prefix of characters satisfying [p], and the rest. *)
Fixpoint span (p : ascii -> bool) (s : string) : string * string :=
  match s with
  | String c r =>
      if p c then let '(a, b) := span p r in (String c a, b)
      else (EmptyString, s)
  | EmptyString => (EmptyString, EmptyString)
  end.

(** [s.split(re)] for a regular expression [re = [...]+] over the
    character class [sep]: the fields between the maximal runs of
    separators, with an empty first (last) field when the string starts
    (ends) with a separator. *)
Fixpoint splitRuns (sep : ascii -> bool) (s : string) (field : string)
         (inRun : bool) : list string :=
  match s with
  | EmptyString => [field]
  | String c r =>
      if sep c then
        if inRun then splitRuns sep r EmptyString true
        else field :: splitRuns sep r EmptyString true
      else splitRuns sep r (field +:+ String c EmptyString) false
  end.

Definition split (sep : ascii -> bool) (s : string) : list string :=
  splitRuns sep s EmptyString false.

Fixpoint join (sep : string) (l : list string) : string :=
  match l with
  | [] => EmptyString
  | [x] => x
  | x :: r => x +:+ sep +:+ join sep r
  end.

(** [s.padStart(2, '0')] *)
Definition padStart2 (s : string) : string :=
  match s with
  | EmptyString => "00"
  | String c EmptyString => String "0" (String c EmptyString)
  | _ => s
  end.

Definition hexDigit (n : N) : ascii :=
  if (n <? 10)%N then Ascii.ascii_of_N (48 + n) else Ascii.ascii_of_N (87 + n).

(** [n.toString(16)] for a non-negative integer, most significant digit
    first; [fuel] bounds the number of digits. *)
Fixpoint toHexAux (fuel : nat) (n : N) (acc : string) : string :=
  match fuel with
  | O => acc
  | S f =>
      let acc' := String (hexDigit (n mod 16)) acc in
      if (n / 16 =? 0)%N then acc' else toHexAux f (n / 16)%N acc'
  end.

Definition toHex (n : N) : string := toHexAux (S (N.to_nat (N.log2 n))) n EmptyString.

(** [parseInt] of a string of decimal digits. *)
Fixpoint parseDigits (s : string) (acc : N) : N :=
  match s with
  | EmptyString => acc
  | String c r => parseDigits r (10 * acc + (code c - 48))%N
  end.

Definition parseInt10 (s : string) : N := parseDigits s 0%N.

(** [parseInt(h, 16)] of one hexadecimal digit, either case. *)
Definition hexVal (c : ascii) : Z :=
  let n := code c in
  if ((48 <=? n) && (n <=? 57))%N then Z.of_N (n - 48)
  else if ((97 <=? n) && (n <=? 102))%N then Z.of_N (n - 87)
  else Z.of_N (n - 55).

Fixpoint forallb (p : ascii -> bool) (s : string) : bool :=
  match s with
  | EmptyString => true
  | String c r => p c && forallb p r
  end.

End Str.

(** ** Colour normaliser and matcher ([panelSvg.ts]) *)

(** The table [namedColors].  Only its own keys are modelled; the two lower
    case keys every JavaScript object inherits ([constructor], [__proto__])
    are not colour tokens and are left out. *)
Definition namedColors (c : string) : option string :=
  if String.eqb c "black" then Some "#000000"
  else if String.eqb c "white" then Some "#ffffff"
  else if String.eqb c "red" then Some "#ff0000"
  else if String.eqb c "green" then Some "#00ff00"
  else if String.eqb c "blue" then Some "#0000ff"
  else if String.eqb c "lime" then Some "#00ff00"
  else if String.eqb c "none" then Some "none"
  else if String.eqb c "transparent" then Some "none"
  else None.

(** One attempt of [/rgb\s*\(\s*(\d+)\s*,\s*(\d+)\s*,\s*(\d+)\s*\)/] at the
    start of [s].  The character classes that follow one another are
    disjoint, so the greedy match is the only one. *)
Definition rgbAt (s : string) : option (string * string * string) :=
  if Str.startsWith "rgb" s then
    match Str.skipSpaces (Str.drop 3 s) with
    | String "(" s1 =>
        let '(r, s2) := Str.span Str.isDigit (Str.skipSpaces s1) in
        if Str.truthy r then
          match Str.skipSpaces s2 with
          | String "," s3 =>
              let '(g, s4) := Str.span Str.isDigit (Str.skipSpaces s3) in
              if Str.truthy g then
                match Str.skipSpaces s4 with
                | String "," s5 =>
                    let '(b, s6) := Str.span Str.isDigit (Str.skipSpaces s5) in
                    if Str.truthy b then
                      match Str.skipSpaces s6 with
                      | String ")" _ => Some (r, g, b)
                      | _ => None
                      end
                    else None
                | _ => None
                end
              else None
          | _ => None
          end
        else None
    | _ => None
    end
  else None.

(** [c.match(/rgb.../)]: the leftmost position where the pattern matches. *)
Fixpoint rgbMatch (s : string) : option (string * string * string) :=
  match rgbAt s with
  | Some m => Some m
  | None =>
      match s with
      | String _ r => rgbMatch r
      | EmptyString => None
      end
  end.

(** [parseInt(x).toString(16).padStart(2, '0')] *)
Definition hexByte (digits : string) : string :=
  Str.padStart2 (Str.toHex (Str.parseInt10 digits)).

Definition normalizeColorToHex (color : string) : string :=
  let c := Str.toLowerCase (Str.trim color) in
  if Str.startsWith "#" c then
    match c with
    | String _ (String c1 (String c2 (String c3 EmptyString))) =>
        String "#" (String c1 (String c1 (String c2 (String c2
          (String c3 (String c3 EmptyString))))))
    | _ => c
    end
  else
    match namedColors c with
    | Some v => v
    | None =>
        match rgbMatch c with
        | Some (r, g, b) => "#" +:+ hexByte r +:+ hexByte g +:+ hexByte b
        | None => c
        end
    end.

(** The local [parse] of [colorsMatch]:
    [/^#([0-9a-f]{2})([0-9a-f]{2})([0-9a-f]{2})$/i]. *)
Definition parseHex6 (hex : string) : option (Z * Z * Z) :=
  match hex with
  | String "#" (String r1 (String r2 (String g1 (String g2
      (String b1 (String b2 EmptyString)))))) =>
      if Str.isHexAny r1 && Str.isHexAny r2 && Str.isHexAny g1
         && Str.isHexAny g2 && Str.isHexAny b1 && Str.isHexAny b2
      then Some (16 * Str.hexVal r1 + Str.hexVal r2,
                 16 * Str.hexVal g1 + Str.hexVal g2,
                 16 * Str.hexVal b1 + Str.hexVal b2)%Z
      else None
  | _ => None
  end.

Definition tolerance : Z := 10.

Definition colorsMatch (color1 color2 : string) : bool :=
  let c1 := normalizeColorToHex color1 in
  let c2 := normalizeColorToHex color2 in
  if String.eqb c1 c2 then true
  else if String.eqb (Str.toLowerCase c1) (Str.toLowerCase c2) then true
  else
    match parseHex6 c1, parseHex6 c2 with
    | Some (r1, g1, b1), Some (r2, g2, b2) =>
        (Z.abs (r1 - r2) <=? tolerance)%Z
        && (Z.abs (g1 - g2) <=? tolerance)%Z
        && (Z.abs (b1 - b2) <=? tolerance)%Z
    | _, _ => false
    end.

(** ** Layer rules *)

Inductive Visibility := hidden | show_black | show_color.
Inductive RenderMode := fill_mode | stroke_mode.

Record LayerConfig := {
  color : string;
  visibility : Visibility;
  renderMode : RenderMode;
  outputColor : option string
}.

Definition findLayerConfig (c : string) (layers : list LayerConfig)
  : option LayerConfig :=
  let normalized := normalizeColorToHex c in
  if String.eqb normalized "none" || negb (Str.truthy normalized) then None
  else List.find (fun layer => colorsMatch normalized (color layer)) layers.

Module Presets.
Definition mk c v m o : LayerConfig :=
  {| color := c; visibility := v; renderMode := m; outputColor := Some o |}.

Definition standard : list LayerConfig :=
  [ mk "#0000ff" show_color stroke_mode "#0000ff";
    mk "#00c100" show_color fill_mode "#00c100";
    mk "#000000" show_color stroke_mode "#000000";
    mk "#ff0000" show_color stroke_mode "#ff0000" ].

Definition inverted : list LayerConfig :=
  [ mk "#0000ff" hidden fill_mode "#000000";
    mk "#00c100" show_color fill_mode "#000000";
    mk "#000000" show_color fill_mode "#000000";
    mk "#ff0000" show_color stroke_mode "#ff0000" ].
End Presets.

(** ** Grid layout ([panelLayout.ts]) *)

Local Open Scope Q_scope.

Record PanelLayoutSettings := {
  panelWidthMm : Q;
  panelHeightMm : Q;
  cellSizeMm : Q;
  marginMm : Q;
  gutterMm : Q
}.

Record Placement := {
  indexInPanel : Z;
  place_x : Q;
  place_y : Q;
  place_size : Q
}.

Record GridLayout := {
  cols : Z;
  rows : Z;
  capacityPerPanel : Z;
  placements : list Placement
}.

(** [0, 1, ..., n-1]; empty when [n <= 0]: the values a
    [for (let i = 0; i < n; i++)] loop runs through. *)
Definition upto (n : Z) : list Z := List.map Z.of_nat (List.seq 0 (Z.to_nat n)).

(** The result is [None] when [cellSizeMm + gutterMm] is zero: the two
    quotients are then infinite or NaN, which [Q] does not have. *)
Definition computeGridLayout (settings : PanelLayoutSettings) : option GridLayout :=
  let usableW := panelWidthMm settings - marginMm settings * 2 in
  let usableH := panelHeightMm settings - marginMm settings * 2 in
  let pitch := cellSizeMm settings + gutterMm settings in
  if Qeq_bool pitch 0 then None
  else
    let cols := Qfloor ((usableW + gutterMm settings) / pitch) in
    let rows := Qfloor ((usableH + gutterMm settings) / pitch) in
    let capacityPerPanel := Z.max 0 (cols * rows) in
    let placements :=
      if ((0 <? cols) && (0 <? rows))%Z then
        List.flat_map (fun r =>
          List.map (fun c =>
            {| indexInPanel := (r * cols + c)%Z;
               place_x := marginMm settings + inject_Z c * pitch;
               place_y := marginMm settings + inject_Z r * pitch;
               place_size := cellSizeMm settings |})
            (upto cols))
          (upto rows)
      else [] in
    Some {| cols := cols; rows := rows;
            capacityPerPanel := capacityPerPanel;
            placements := placements |}.

Definition computePanelCount (itemCount : Z) (capacityPerPanel : Z) : Z :=
  if (capacityPerPanel <=? 0)%Z then 0%Z
  else Qceiling (inject_Z itemCount / inject_Z capacityPerPanel).

(** ** The document model *)

Module Bounds.
Record t := mk { x : Q; y : Q; width : Q; height : Q }.
End Bounds.

Definition attr : Type := string * string.

Inductive node :=
| Elem (tag : string) (attrs : list attr) (kids : list node)
| Text (data : string).

Definition tagName (n : node) : string :=
  match n with Elem t _ _ => t | Text _ => EmptyString end.

Definition attributes (n : node) : list attr :=
  match n with Elem _ a _ => a | Text _ => [] end.

Definition childNodes (n : node) : list node :=
  match n with Elem _ _ ks => ks | Text _ => [] end.

(** [el.getAttribute(name)], [null] as [None]. *)
Fixpoint getAttr (name : string) (a : list attr) : option string :=
  match a with
  | [] => None
  | (k, v) :: r => if String.eqb k name then Some v else getAttr name r
  end.

(** [el.setAttribute(name, value)]: an existing attribute keeps its place. *)
Fixpoint setAttr (name value : string) (a : list attr) : list attr :=
  match a with
  | [] => [(name, value)]
  | (k, v) :: r =>
      if String.eqb k name then (k, value) :: r
      else (k, v) :: setAttr name value r
  end.

Fixpoint removeAttr (name : string) (a : list attr) : list attr :=
  match a with
  | [] => []
  | (k, v) :: r =>
      if String.eqb k name then removeAttr name r
      else (k, v) :: removeAttr name r
  end.

Definition getAttribute (name : string) (n : node) : option string :=
  getAttr name (attributes n).

(** A string that is neither [null] nor empty. *)
Definition nonEmpty (o : option string) : option string :=
  match o with
  | Some (String c r) => Some (String c r)
  | _ => None
  end.

(** The element descendants of a node, the node included, in document
    order.  An element is identified by its position in this list. *)
Fixpoint elems (n : node) : list node :=
  match n with
  | Text _ => []
  | Elem _ _ ks => n :: List.flat_map elems ks
  end.

Definition elemsOf (forest : list node) : list node := List.flat_map elems forest.

Definition size (n : node) : nat := length (elems n).

Fixpoint indexed {A} (i : nat) (l : list A) : list (nat * A) :=
  match l with
  | [] => []
  | a :: r => (i, a) :: indexed (S i) r
  end.

Definition hasTag (sel : list string) (n : node) : bool :=
  List.existsb (String.eqb (tagName n)) sel.

(** [root.querySelectorAll('t1, t2, ...')] for a list of type selectors:
    the matching descendants of the forest, each with its identity. *)
Definition querySelectorAll (sel : list string) (forest : list node)
  : list (nat * node) :=
  List.filter (fun p => hasTag sel (snd p)) (indexed 0 (elemsOf forest)).

Definition querySelector (sel : list string) (forest : list node)
  : option (nat * node) :=
  List.hd_error (querySelectorAll sel forest).

Inductive verdict :=
| Keep (a : list attr)
| Remove.

(** Rebuilds a forest: [f] is asked, for every element and its identity,
    whether it stays (and with which attributes) or goes with its subtree. *)
Fixpoint rewriteNode (f : nat -> node -> verdict) (i : nat) (n : node)
  : list node :=
  match n with
  | Text _ => [n]
  | Elem t a ks =>
      let ks' :=
        (fix go (i : nat) (l : list node) : list node :=
           match l with
           | [] => []
           | k :: l' => rewriteNode f i k ++ go (i + size k)%nat l'
           end) (S i) ks in
      match f i n with
      | Keep a' => [Elem t a' ks']
      | Remove => []
      end
  end.

Fixpoint rewriteForest (f : nat -> node -> verdict) (i : nat)
         (forest : list node) : list node :=
  match forest with
  | [] => []
  | k :: l => rewriteNode f i k ++ rewriteForest f (i + size k)%nat l
  end.

Definition memNat (i : nat) (l : list nat) : bool := List.existsb (Nat.eqb i) l.

(** [el.remove()] for every element of [marks]. *)
Definition removeAll (marks : list nat) (forest : list node) : list node :=
  rewriteForest (fun i n => if memNat i marks then Remove else Keep (attributes n))
                0 forest.

(** In-place attribute updates of the elements selected by [f]. *)
Definition updateAttrs (f : nat -> node -> option (list attr))
           (forest : list node) : list node :=
  rewriteForest (fun i n => Keep (default (attributes n) (f i n))) 0 forest.

(** What the browser provides. *)
Record Host := {
  (** [new DOMParser().parseFromString(text, 'image/svg+xml')]: the
      document element of the result. *)
  parseFromString : string -> node;
  (** [el.innerHTML] as a function of the children of [el]. *)
  innerHTML : list node -> string;
  (** [el.getBBox()]; [None] when it throws or a component is not finite. *)
  getBBox : node -> option Bounds.t;
  (** [Number(s)]; [None] when the result is not finite. *)
  toNumber : string -> option Q;
  (** [Number.parseFloat(s)]; [None] when the result is not finite. *)
  parseFloat : string -> option Q;
  (** [String(x)] *)
  numToString : Q -> string;
  (** [getBBox()] of a [<text>] with the given content, font family and
      font size, alone in an off-screen [<svg>]. *)
  textBBox : string -> string -> Q -> option Bounds.t;
  (** [getBBox()] of an off-screen [<svg>] with the given view box and
      inner markup. *)
  contentBBox : Bounds.t -> string -> option Bounds.t
}.

(** ** Style resolver ([panelSvg.ts]) *)

Record ParsedStyleRule := {
  rule_fill : option string;
  rule_stroke : option string;
  rule_strokeWidth : option string
}.

Definition StyleMap : Type := gmap string ParsedStyleRule.

(** The first occurrence of [pat] (given in lower case) in [s], compared
    without regard to case: the text before it and the text after it. *)
Fixpoint findCI (pat : string) (s : string) : option (string * string) :=
  if Str.startsWithCI pat s then Some (EmptyString, Str.drop (String.length pat) s)
  else
    match s with
    | EmptyString => None
    | String c r =>
        match findCI pat r with
        | Some (before, after) => Some (String c before, after)
        | None => None
        end
    end.

Definition notChar (x : ascii) (c : ascii) : bool := negb (Ascii.eqb c x).

(** [svgText.match(/<style[^>]*>([\s\S]*?)<\/style>/i)], the captured group. *)
Definition styleBlock (svgText : string) : option string :=
  match findCI "<style" svgText with
  | Some (_, r) =>
      match snd (Str.span (notChar ">") r) with
      | String _ body =>
          match findCI "</style>" body with
          | Some (css, _) => Some css
          | None => None
          end
      | EmptyString => None
      end
  | None => None
  end.

(** The text after a property name, matched against [\s*:\s*([^;]+)]; the
    result is the captured group after [trim()].  When nothing but white
    space stands before the [;] (or the end), the group is one white space
    character that [\s*] gives back, and trims to the empty string. *)
Definition declValue (s : string) : option string :=
  match Str.skipSpaces s with
  | String ":" t =>
      let t' := Str.skipSpaces t in
      let v := fst (Str.span (notChar ";") t') in
      if Str.truthy v then Some (Str.trim v)
      else if (String.length t' <? String.length t)%nat then Some EmptyString
      else None
  | _ => None
  end.

(** [text.match(/kw\s*:\s*([^;]+)/i)], and with [dashGuard] the pattern
    [/(?:^|[^-])kw\s*:\s*([^;]+)/i]: the first position of [kw] that matches,
    [prev] being the character before [s]. *)
Fixpoint findDecl (kw : string) (dashGuard : bool) (prev : option ascii)
         (s : string) : option string :=
  let allowed :=
    match prev with
    | Some c => negb dashGuard || notChar "-" c
    | None => true
    end in
  let here :=
    if allowed && Str.startsWithCI kw s
    then declValue (Str.drop (String.length kw) s) else None in
  match here with
  | Some v => Some v
  | None =>
      match s with
      | String c r => findDecl kw dashGuard (Some c) r
      | EmptyString => None
      end
  end.

Definition matchFill (s : string) : option string := findDecl "fill" false None s.
Definition matchStroke (s : string) : option string := findDecl "stroke" true None s.
Definition matchStrokeWidth (s : string) : option string :=
  findDecl "stroke-width" false None s.

(** One attempt of [/\.([a-zA-Z0-9_-]+)\s*\{([^}]+)\}/] at the start of [s]:
    the class name, the declarations and the text after the match. *)
Definition ruleAt (s : string) : option (string * string * string) :=
  match s with
  | String "." r =>
      let '(name, r1) := Str.span Str.isClassChar r in
      if Str.truthy name then
        match Str.skipSpaces r1 with
        | String "{" r2 =>
            let '(decl, r3) := Str.span (notChar "}") r2 in
            if Str.truthy decl then
              match r3 with
              | String _ rest => Some (name, decl, rest)
              | EmptyString => None
              end
            else None
        | _ => None
        end
      else None
  | _ => None
  end.

Definition parseRule (declarations : string) : ParsedStyleRule :=
  {| rule_fill := matchFill declarations;
     rule_stroke := matchStroke declarations;
     rule_strokeWidth := matchStrokeWidth declarations |}.

(** The [while ((match = ruleRegex.exec(cssText)) !== null)] loop.  [skip]
    is the number of characters still covered by the previous match. *)
Fixpoint scanRules (s : string) (skip : nat) (result : StyleMap) : StyleMap :=
  match s with
  | EmptyString => result
  | String _ r =>
      match skip with
      | S k => scanRules r k result
      | O =>
          match ruleAt s with
          | Some (className, declarations, rest) =>
              scanRules r (String.length s - String.length rest - 1)%nat
                        (<[className := parseRule declarations]> result)
          | None => scanRules r O result
          end
      end
  end.

Definition parseSvgStyleBlock (svgText : string) : StyleMap :=
  match styleBlock svgText with
  | None => ∅
  | Some cssText => scanRules cssText O ∅
  end.

Record Colors := {
  fill : option string;
  stroke : option string;
  strokeWidth : option string
}.

(** [if (v) cur = v] *)
Definition assignIf (v cur : option string) : option string :=
  match nonEmpty v with Some s => Some s | None => cur end.

(** [if (m) cur = m[1].trim()] *)
Definition assignMatch (m cur : option string) : option string :=
  match m with Some s => Some s | None => cur end.

(** [if (!cur && a) cur = a] *)
Definition fallback (cur a : option string) : option string :=
  match nonEmpty cur with
  | Some _ => cur
  | None => match nonEmpty a with Some s => Some s | None => cur end
  end.

Definition classesOf (el : node) : list string :=
  match nonEmpty (getAttribute "class" el) with
  | Some classAttr => Str.split Str.isSpace classAttr
  | None => []
  end.

Definition getElementColors (el : node) (styleMap : StyleMap) : Colors :=
  let byClass :=
    List.fold_left
      (fun (acc : Colors) cls =>
         match styleMap !! cls with
         | Some rule =>
             {| fill := assignIf (rule_fill rule) (fill acc);
                stroke := assignIf (rule_stroke rule) (stroke acc);
                strokeWidth := assignIf (rule_strokeWidth rule) (strokeWidth acc) |}
         | None => acc
         end)
      (classesOf el)
      {| fill := None; stroke := None; strokeWidth := None |} in
  let byStyle :=
    match nonEmpty (getAttribute "style" el) with
    | Some styleAttr =>
        {| fill := assignMatch (matchFill styleAttr) (fill byClass);
           stroke := assignMatch (matchStroke styleAttr) (stroke byClass);
           strokeWidth := assignMatch (matchStrokeWidth styleAttr) (strokeWidth byClass) |}
    | None => byClass
    end in
  {| fill := fallback (fill byStyle) (getAttribute "fill" el);
     stroke := fallback (stroke byStyle) (getAttribute "stroke" el);
     strokeWidth := fallback (strokeWidth byStyle) (getAttribute "stroke-width" el) |}.

(** ** Geometry helpers *)

Definition Qlt_bool (a b : Q) : bool := negb (Qle_bool b a).

(** [l.sort((a, b) => score(a) - score(b))]: ascending and stable. *)
Fixpoint insertBy {A} (score : A -> Q) (x : A) (l : list A) : list A :=
  match l with
  | [] => [x]
  | y :: r =>
      if Qle_bool (score y) (score x) then y :: insertBy score x r
      else x :: y :: r
  end.

Definition sortBy {A} (score : A -> Q) (l : list A) : list A :=
  List.fold_left (fun acc x => insertBy score x acc) l [].

Definition isWordChar (c : ascii) : bool :=
  let n := Str.code c in
  ((48 <=? n) && (n <=? 57) || (97 <=? n) && (n <=? 122)
   || (65 <=? n) && (n <=? 90) || (n =? 95))%N.

Definition isZ (c : ascii) : bool := Ascii.eqb c "z" || Ascii.eqb c "Z".

(** [/[zZ]\s*$/.test(d)] *)
Fixpoint closeAtEnd (d : string) : bool :=
  match d with
  | EmptyString => false
  | String c r => isZ c && Str.forallb Str.isSpace r || closeAtEnd r
  end.

(** [/[zZ]\b/.test(d)] *)
Fixpoint closeAtBoundary (d : string) : bool :=
  match d with
  | EmptyString => false
  | String c r =>
      isZ c && match r with
               | EmptyString => true
               | String n _ => negb (isWordChar n)
               end
      || closeAtBoundary r
  end.

Definition isClosedPath (d : option string) : bool :=
  match nonEmpty d with
  | None => false
  | Some d => closeAtEnd d || closeAtBoundary d
  end.

Definition isSepChar (c : ascii) : bool := Str.isSpace c || Ascii.eqb c ",".

(** [s.replace(/[^\d.+-]/g, '')] *)
Fixpoint keepNumeric (s : string) : string :=
  match s with
  | EmptyString => EmptyString
  | String c r =>
      if Str.isDigit c || Ascii.eqb c "." || Ascii.eqb c "+" || Ascii.eqb c "-"
      then String c (keepNumeric r) else keepNumeric r
  end.

(** [parts.length === 4 && parts.every(Number.isFinite)] after
    [vb.split(/[\s,]+/).map(Number)] *)
Definition fourNumbers (H : Host) (vb : string) : option (Q * Q * Q * Q) :=
  match List.map (toNumber H) (Str.split isSepChar vb) with
  | [Some a; Some b; Some c; Some d] => Some (a, b, c, d)
  | _ => None
  end.

Definition getSvgViewBox (H : Host) (svg : node) : option Bounds.t :=
  let fromViewBox :=
    match nonEmpty (getAttribute "viewBox" svg) with
    | Some vb =>
        match fourNumbers H vb with
        | Some (x, y, width, height) =>
            if Qlt_bool 0 width && Qlt_bool 0 height
            then Some (Bounds.mk x y width height) else None
        | None => None
        end
    | None => None
    end in
  match fromViewBox with
  | Some vb => Some vb
  | None =>
      let num (name : string) :=
        match nonEmpty (getAttribute name svg) with
        | Some a => parseFloat H (keepNumeric a)
        | None => None
        end in
      match num "width", num "height" with
      | Some w, Some h =>
          if Qlt_bool 0 w && Qlt_bool 0 h then Some (Bounds.mk 0 0 w h) else None
      | _, _ => None
      end
  end.

Definition isMove (c : ascii) : bool := Ascii.eqb c "M" || Ascii.eqb c "m".

(** [s.split(/(?=[Mm])/g)]: a new piece starts at every move command that
    is not at the start of a piece. *)
Fixpoint splitAtMoves (s : string) (piece : string) : list string :=
  match s with
  | EmptyString => [piece]
  | String c r =>
      if isMove c && Str.truthy piece
      then piece :: splitAtMoves r (String c EmptyString)
      else splitAtMoves r (piece +:+ String c EmptyString)
  end.

Definition splitPathIntoSubpaths (d : string) : list string :=
  List.filter Str.truthy (List.map Str.trim (splitAtMoves (Str.trim d) EmptyString)).

(** The temporary path is appended to the document, measured and removed;
    [None] when [getBBox] throws. *)
Definition measurePathBBoxForD (H : Host) (d : string) : option Bounds.t :=
  getBBox H (Elem "path" [("d", d); ("fill", "none"); ("stroke", "none")] []).

Definition safeGetBBox (H : Host) (el : node) : option Bounds.t := getBBox H el.

(** ** Ornament hole heuristic *)

Record HoleCandidate := {
  hc_path : nat;
  hc_segIndex : nat;
  hc_score : Q
}.

Section HoleScore.
Variable vb : Bounds.t.

Let vbCx := Bounds.x vb + Bounds.width vb / 2.
Let minDim := Qmin (Bounds.width vb) (Bounds.height vb).

(** The filters and the score shared by both passes; [wTop] and [wSize]
    are the two weights in which the passes differ. *)
Definition holeScore (wTop wSize : Q) (bbox : Bounds.t) : option Q :=
  let maxDim := Qmax (Bounds.width bbox) (Bounds.height bbox) in
  let sizeRatio := maxDim / minDim in
  if Qlt_bool sizeRatio 0.02 || Qlt_bool 0.10 sizeRatio then None
  else
    let aspect := Bounds.width bbox / Bounds.height bbox in
    if Qeq_bool (Bounds.height bbox) 0 then None
    else if Qlt_bool aspect 0.85 || Qlt_bool 1.18 aspect then None
    else
      let cx := Bounds.x bbox + Bounds.width bbox / 2 in
      let cy := Bounds.y bbox + Bounds.height bbox / 2 in
      let dx := Qabs (cx - vbCx) / Bounds.width vb in
      let dyTop := (cy - Bounds.y vb) / Bounds.height vb in
      if Qlt_bool 0.10 dx then None
      else if Qlt_bool dyTop (-0.05) || Qlt_bool 0.15 dyTop then None
      else
        let roundPenalty := Qabs (1 - aspect) in
        Some (dx * 2.0 + dyTop * wTop + roundPenalty * 1.2 + sizeRatio * wSize).

Definition dyTopOf (bbox : Bounds.t) : Q :=
  (Bounds.y bbox + Bounds.height bbox / 2 - Bounds.y vb) / Bounds.height vb.
End HoleScore.

Fixpoint insertDesc (x : nat) (l : list nat) : list nat :=
  match l with
  | [] => [x]
  | y :: r => if (x <=? y)%nat then y :: insertDesc x r else x :: y :: r
  end.

(** [[...l].sort((a, b) => b - a)] *)
Definition sortDesc (l : list nat) : list nat :=
  List.fold_left (fun acc x => insertDesc x acc) l [].

(** [if (idx < l.length) l.splice(idx, 1)] *)
Fixpoint splice1 {A} (idx : nat) (l : list A) : list A :=
  match idx, l with
  | _, [] => []
  | O, _ :: r => r
  | S k, a :: r => a :: splice1 k r
  end.

Definition pathCandidates (H : Host) (vb : Bounds.t) (p : nat * node)
  : list HoleCandidate :=
  match nonEmpty (getAttribute "d" (snd p)) with
  | None => []
  | Some d =>
      let segments := splitPathIntoSubpaths d in
      if (length segments <? 2)%nat then []
      else
        List.flat_map
          (fun '(i, seg) =>
             if isClosedPath (Some seg) then
               match measurePathBBoxForD H seg with
               | Some bbox =>
                   match holeScore vb 2.4 0.5 bbox with
                   | Some score =>
                       [{| hc_path := fst p; hc_segIndex := i; hc_score := score |}]
                   | None => []
                   end
               | None => []
               end
             else [])
          (indexed 0 segments)
  end.

Definition removeOrnamentHoleFromPathSubpaths (H : Host) (vb : Bounds.t)
           (imported : list node) : list node :=
  let paths := querySelectorAll ["path"] imported in
  let allCandidates := List.flat_map (pathCandidates H vb) paths in
  let toRemove := List.firstn 3 (sortBy hc_score allCandidates) in
  updateAttrs
    (fun i pathEl =>
       let segIndices :=
         List.map hc_segIndex
                  (List.filter (fun c => Nat.eqb (hc_path c) i) toRemove) in
       match segIndices, nonEmpty (getAttribute "d" pathEl) with
       | _ :: _, Some d =>
           let segments := splitPathIntoSubpaths d in
           if (length segments <? 2)%nat then None
           else
             let segments' :=
               List.fold_left (fun segs idx => splice1 idx segs)
                              (sortDesc segIndices) segments in
             Some (setAttr "d" (Str.join " " segments') (attributes pathEl))
       | _, _ => None
       end)
    imported.

(** The second pass runs on the document the first pass left.  The bounding
    box of an element is taken to depend on the element alone, so the box
    measured again before a removal is the box that was scored. *)
Definition removeOrnamentHoleIfFound (H : Host) (vb : Bounds.t)
           (imported : list node) : list node :=
  let imported1 := removeOrnamentHoleFromPathSubpaths H vb imported in
  let candidates :=
    querySelectorAll ["circle"; "ellipse"; "path"; "rect"; "use"; "polygon"]
                     imported1 in
  let scored :=
    List.flat_map
      (fun '(i, el) =>
         if String.eqb (Str.toLowerCase (tagName el)) "text" then []
         else
           match safeGetBBox H el with
           | Some bbox =>
               let d := Qmax (Bounds.width bbox) (Bounds.height bbox) in
               if Qle_bool d 0 then []
               else
                 if Qle_bool (Bounds.width bbox / Bounds.height bbox) 0 then []
                 else
                   match holeScore vb 2.2 0.6 bbox with
                   | Some score => [(i, el, score)]
                   | None => []
                   end
           | None => []
           end)
      candidates in
  let best := List.firstn 2 (sortBy snd scored) in
  let marks :=
    List.flat_map
      (fun '(i, el, _) =>
         match safeGetBBox H el with
         | Some bbox => if Qlt_bool 0.5 (dyTopOf vb bbox) then [] else [i]
         | None => []
         end)
      best in
  removeAll marks imported1.

(** The cover circle of the fallback. *)
Definition coverCircle (H : Host) (vb : Bounds.t) : node :=
  let minDim := Qmin (Bounds.width vb) (Bounds.height vb) in
  let vbCx := Bounds.x vb + Bounds.width vb / 2 in
  Elem "circle"
       [("cx", numToString H vbCx);
        ("cy", numToString H (Bounds.y vb + Bounds.height vb * 0.06));
        ("r", numToString H (minDim * 0.05));
        ("fill", "#ffffff");
        ("stroke", "none");
        ("data-hole-cover", "true")]
       [].

(** The body of the loop of [coverOrnamentHoleWithBackground]: does this
    path set [foundHoleGeometry]? *)
Definition holeGeometry (H : Host) (vb : Bounds.t) (pathEl : node) : bool :=
  let minDim := Qmin (Bounds.width vb) (Bounds.height vb) in
  match nonEmpty (getAttribute "d" pathEl),
        nonEmpty (getAttribute "stroke" pathEl) with
  | Some _, Some stroke =>
      if String.eqb (Str.toLowerCase stroke) "none" then false
      else
        match safeGetBBox H pathEl with
        | Some bbox =>
            if Qlt_bool (Bounds.y vb + Bounds.height vb * 0.15) (Bounds.y bbox)
            then false
            else
              let pathSizeRatio :=
                Qmax (Bounds.width bbox) (Bounds.height bbox) / minDim in
              negb (Qlt_bool pathSizeRatio 0.7)
        | None => false
        end
  | _, _ => false
  end.

Definition coverOrnamentHoleWithBackground (H : Host) (vb : Bounds.t)
           (imported : list node) : list node :=
  let paths := querySelectorAll ["path"] imported in
  let foundHoleGeometry := List.existsb (fun p => holeGeometry H vb (snd p)) paths in
  if foundHoleGeometry then imported ++ [coverCircle H vb] else imported.

(** ** Round backer outline *)

(** The effective stroke of a cut-line candidate, as the three loops of
    [detectCutLineBbox] and [addRoundBackerOutline] resolve it. *)
Definition strokeOf (styleMap : StyleMap) (el : node) : option string :=
  let byClass :=
    List.fold_left
      (fun (acc : option string) cls =>
         match styleMap !! cls with
         | Some rule => assignIf (rule_stroke rule) acc
         | None => acc
         end)
      (classesOf el) None in
  let byStyle :=
    match nonEmpty (getAttribute "style" el) with
    | Some styleAttr => assignMatch (matchStroke styleAttr) byClass
    | None => byClass
    end in
  match nonEmpty byStyle with
  | Some s => Some s
  | None => getAttribute "stroke" el
  end.

Definition cutLineColor : string := "#0000ff".

Definition isCutColored (styleMap : StyleMap) (el : node) : bool :=
  match nonEmpty (strokeOf styleMap el) with
  | Some stroke => colorsMatch (normalizeColorToHex stroke) cutLineColor
  | None => false
  end.

(** The search loop: the cut-coloured candidate with the largest box width,
    the first one on a tie. *)
Definition findCutLine (H : Host) (styleMap : StyleMap) (imported : list node)
  : option (nat * Bounds.t) :=
  List.fold_left
    (fun (best : option (nat * Bounds.t)) '(i, el) =>
       if isCutColored styleMap el then
         match safeGetBBox H el with
         | Some bbox =>
             if Qle_bool (Bounds.width bbox) 0 then best
             else
               match best with
               | Some (_, b) =>
                   if Qlt_bool (Bounds.width b) (Bounds.width bbox)
                   then Some (i, bbox) else best
               | None => Some (i, bbox)
               end
         | None => best
         end
       else best)
    (querySelectorAll ["circle"; "ellipse"; "path"] imported)
    None.

Definition detectCutLineBbox (H : Host) (imported : list node)
           (styleMap : StyleMap) : option Bounds.t :=
  option_map snd (findCutLine H styleMap imported).

Record Circle := { diameter : Q; cx : Q; cy : Q }.

Definition backerFromCutLine (cutBbox : Bounds.t) : Circle :=
  let diameter := Bounds.width cutBbox in
  {| diameter := diameter;
     cx := Bounds.x cutBbox + Bounds.width cutBbox / 2;
     cy := Bounds.y cutBbox + Bounds.height cutBbox - diameter / 2 |}.

Definition backerFromViewBox (vb : Bounds.t) : Circle :=
  {| diameter := Qmin (Bounds.width vb) (Bounds.height vb) * 0.95;
     cx := Bounds.x vb + Bounds.width vb / 2;
     cy := Bounds.y vb + Bounds.height vb / 2 |}.

Definition backerCircle (H : Host) (c : Circle) (strokeWidth : Q) : node :=
  Elem "circle"
       [("cx", numToString H (cx c));
        ("cy", numToString H (cy c));
        ("r", numToString H (diameter c / 2));
        ("fill", "none");
        ("stroke", "#000000");
        ("stroke-width", numToString H strokeWidth)]
       [].

Definition blueElements (styleMap : StyleMap) (imported : list node) : list nat :=
  List.map fst
    (List.filter (fun p => isCutColored styleMap (snd p))
                 (querySelectorAll ["circle"; "ellipse"; "path"; "line"] imported)).

Definition addRoundBackerOutline (H : Host) (imported : list node)
           (vb : Bounds.t) (styleMap : StyleMap) (strokeWidth : Q)
           (preCalculatedBbox : option Bounds.t) : list node :=
  let found : option (option nat * Bounds.t) :=
    match preCalculatedBbox with
    | Some b => Some (None, b)
    | None =>
        match findCutLine H styleMap imported with
        | Some (i, b) => Some (Some i, b)
        | None => None
        end
    end in
  match found with
  | None => imported ++ [backerCircle H (backerFromViewBox vb) strokeWidth]
  | Some (cutElement, cutBbox) =>
      let imported1 :=
        match cutElement with
        | Some i => removeAll [i] imported
        | None => imported
        end in
      removeAll (blueElements styleMap imported1) imported1
        ++ [backerCircle H (backerFromCutLine cutBbox) strokeWidth]
  end.

(** ** Layer classifier and transformer *)

Record ProcessingOptions := {
  removeOrnamentHole : bool;
  addRoundBacker : bool;
  roundBackerStrokeWidth : Q
}.

(** The defaults of the destructuring in [processLayersForPanel]. *)
Definition defaultOptions : ProcessingOptions :=
  {| removeOrnamentHole := false; addRoundBacker := false;
     roundBackerStrokeWidth := 0.5 |}.

Definition shapeSelector : list string :=
  ["path"; "rect"; "circle"; "ellipse"; "polygon"; "polyline"; "line";
   "text"; "use"].

Definition candidateSelector : list string := shapeSelector ++ ["g"].

Definition isGroup (el : node) : bool :=
  String.eqb (Str.toLowerCase (tagName el)) "g".

(** [c && c.toLowerCase() !== 'none'] *)
Definition visibleColor (c : option string) : option string :=
  match nonEmpty c with
  | Some s => if String.eqb (Str.toLowerCase s) "none" then None else Some s
  | None => None
  end.

Definition setIf (name : string) (v : option string) (a : list attr) : list attr :=
  match nonEmpty v with
  | Some s => setAttr name s a
  | None => a
  end.

Definition targetColorOf (layerConfig : LayerConfig) (primaryColor : string) : string :=
  match nonEmpty (outputColor layerConfig) with
  | Some c => c
  | None =>
      match visibility layerConfig with
      | show_black => "#000000"
      | _ => normalizeColorToHex primaryColor
      end
  end.

Definition canFill (el : node) : bool :=
  let tag := Str.toLowerCase (tagName el) in
  String.eqb tag "circle" || String.eqb tag "ellipse" || String.eqb tag "rect"
  || String.eqb tag "polygon"
  || String.eqb tag "path" && isClosedPath (getAttribute "d" el).

(** The rule that applies to an element and the colour it was found
    under: the primary colour first, then the stroke colour. *)
Definition matchLayer (colors : Colors) (primaryColor : string)
           (layers : list LayerConfig) : option (LayerConfig * string) :=
  match findLayerConfig primaryColor layers with
  | Some layerConfig => Some (layerConfig, primaryColor)
  | None =>
      match visibleColor (stroke colors) with
      | Some s =>
          match findLayerConfig s layers with
          | Some strokeConfig => Some (strokeConfig, s)
          | None => None
          end
      | None => None
      end
  end.

(** The callback of [candidates.forEach] for an element that is not a
    group: its attributes afterwards, and whether it was pushed on
    [elementsToRemove]. *)
Definition visitElement (layers : option (list LayerConfig))
           (styleMap : StyleMap) (el : node) : list attr * bool :=
  let colors := getElementColors el styleMap in
  let a0 := removeAttr "style" (removeAttr "class" (attributes el)) in
  match layers with
  | None =>
      (setIf "stroke-width" (strokeWidth colors)
         (setIf "stroke" (stroke colors) (setIf "fill" (fill colors) a0)),
       false)
  | Some layers =>
      let hasFill := visibleColor (fill colors) in
      let hasStroke := visibleColor (stroke colors) in
      let primaryColor :=
        match hasFill with Some f => Some f | None => hasStroke end in
      match primaryColor with
      | None => (a0, false)
      | Some primaryColor =>
          match matchLayer colors primaryColor layers with
          | None => (a0, true)
          | Some (layerConfig, primaryColor) =>
              match visibility layerConfig with
              | hidden => (a0, true)
              | _ =>
                  let targetColor := targetColorOf layerConfig primaryColor in
                  match renderMode layerConfig with
                  | fill_mode =>
                      let a1 :=
                        match hasFill, hasStroke with
                        | Some _, _ => setAttr "fill" targetColor a0
                        | None, Some _ =>
                            if canFill el then setAttr "fill" targetColor a0
                            else
                              setAttr "stroke-width"
                                (Str.orElse (strokeWidth colors) "0.5")
                                (setAttr "stroke" targetColor
                                   (setAttr "fill" "none" a0))
                        | None, None => a0
                        end in
                      (setAttr "stroke" "none" a1, false)
                  | stroke_mode =>
                      let width :=
                        match hasFill with
                        | Some _ => Str.orElse (strokeWidth colors) "1"
                        | None => Str.orElse (strokeWidth colors) "0.5"
                        end in
                      (setAttr "stroke-width" width
                         (setAttr "stroke" targetColor
                            (setAttr "fill" "none" a0)),
                       false)
                  end
              end
          end
      end
  end.

(** [candidates.forEach(...)] followed by
    [elementsToRemove.forEach(el => el.remove())].  The callback reads and
    writes the element it is called on and nothing else, and the removals
    come after the last call, so the two loops amount to one walk over the
    document: an element that was marked leaves with its subtree, the others
    stay with the attributes the callback gave them. *)
Fixpoint layerNode (layers : option (list LayerConfig)) (styleMap : StyleMap)
         (n : node) : list node :=
  match n with
  | Text _ => [n]
  | Elem t a ks =>
      let ks' := List.flat_map (layerNode layers styleMap) ks in
      if hasTag candidateSelector n && negb (isGroup n) then
        let '(a', marked) := visitElement layers styleMap n in
        if marked then [] else [Elem t a' ks']
      else [Elem t a ks']
  end.

Definition layerForest (layers : option (list LayerConfig))
           (styleMap : StyleMap) (imported : list node) : list node :=
  List.flat_map (layerNode layers styleMap) imported.

Definition hasShape (forest : list node) : bool :=
  List.existsb (hasTag shapeSelector) (elemsOf forest).

(** [imported.querySelectorAll('g').forEach(g => { if (!g.querySelector(
    shapes)) g.remove() })].  A group that is removed has no shape below it,
    so its removal never changes the answer for another group, and every
    group can be judged on the document as it was. *)
Fixpoint pruneGroup (n : node) : list node :=
  match n with
  | Text _ => [n]
  | Elem t a ks =>
      if String.eqb t "g" && negb (hasShape ks) then []
      else [Elem t a (List.flat_map pruneGroup ks)]
  end.

Definition removeEmptyGroups (imported : list node) : list node :=
  List.flat_map pruneGroup imported.

Definition removeStyleElement (imported : list node) : list node :=
  match querySelector ["style"] imported with
  | Some (i, _) => removeAll [i] imported
  | None => imported
  end.

(** The part of [processLayersForPanel] from the removal of the style
    block to the clean-up of the empty groups: the layer transform. *)
Definition applyLayers (layers : option (list LayerConfig))
           (styleMap : StyleMap) (imported : list node) : list node :=
  let kept := layerForest layers styleMap (removeStyleElement imported) in
  match layers with
  | Some _ => removeEmptyGroups kept
  | None => kept
  end.

(** The document after [removeOrnamentHoleIfFound], when it runs. *)
Definition holeStage (H : Host) (options : ProcessingOptions)
           (viewBox : option Bounds.t) (imported : list node) : list node :=
  match removeOrnamentHole options, viewBox with
  | true, Some vb => removeOrnamentHoleIfFound H vb imported
  | _, _ => imported
  end.

(** [savedCutLineBbox] *)
Definition savedCutLine (H : Host) (options : ProcessingOptions)
           (viewBox : option Bounds.t) (styleMap : StyleMap)
           (imported : list node) : option Bounds.t :=
  match addRoundBacker options, viewBox with
  | true, Some _ => detectCutLineBbox H imported styleMap
  | _, _ => None
  end.

Definition backerStage (H : Host) (options : ProcessingOptions)
           (viewBox : option Bounds.t) (styleMap : StyleMap)
           (saved : option Bounds.t) (imported : list node) : list node :=
  match addRoundBacker options, viewBox with
  | true, Some vb =>
      addRoundBackerOutline H imported vb styleMap
                            (roundBackerStrokeWidth options) saved
  | _, _ => imported
  end.

Definition coverStage (H : Host) (options : ProcessingOptions)
           (viewBox : option Bounds.t) (imported : list node) : list node :=
  match removeOrnamentHole options && negb (addRoundBacker options), viewBox with
  | true, Some vb => coverOrnamentHoleWithBackground H vb imported
  | _, _ => imported
  end.

(** The document when the fallback of the ornament hole is reached: after
    all other processing. *)
Definition beforeCover (H : Host) (svgText : string) (svg : node)
           (layers : option (list LayerConfig)) (options : ProcessingOptions)
  : list node :=
  let styleMap := parseSvgStyleBlock svgText in
  let viewBox := getSvgViewBox H svg in
  let imported1 := holeStage H options viewBox (childNodes svg) in
  let saved := savedCutLine H options viewBox styleMap imported1 in
  let imported2 := applyLayers layers styleMap imported1 in
  backerStage H options viewBox styleMap saved imported2.

(** [processLayersForPanel] from the imported [<svg>] element on: the
    children of the element when the function returns.  The [width] and
    [height] the function sets on the element itself are not part of the
    result. *)
Definition processImported (H : Host) (svgText : string) (svg : node)
           (layers : option (list LayerConfig)) (options : ProcessingOptions)
  : list node :=
  coverStage H options (getSvgViewBox H svg)
             (beforeCover H svgText svg layers options).

Definition processLayersForPanel (H : Host) (svgText : string)
           (layers : option (list LayerConfig)) (options : ProcessingOptions)
  : string :=
  let doc := parseFromString H svgText in
  match querySelector ["parsererror"] [doc] with
  | Some _ => svgText
  | None =>
      match querySelector ["svg"] [doc] with
      | None => svgText
      | Some (_, svg) =>
          innerHTML H (processImported H svgText svg layers options)
      end
  end.

(** ** Document parser ([svgParse.ts]) *)

Inductive outcome (A : Type) :=
| Ok (a : A)
| Throw (message : string).
Arguments Ok {A} a.
Arguments Throw {A} message.

Record ParsedSvg := {
  viewBox : Bounds.t;
  innerContent : string
}.

(** A number that is neither [null] nor zero. *)
Definition truthyNum (o : option Q) : option Q :=
  match o with
  | Some q => if Qeq_bool q 0 then None else Some q
  | None => None
  end.

Definition parseNumber (H : Host) (s : option string) : option Q :=
  match nonEmpty s with
  | Some s => parseFloat H (keepNumeric s)
  | None => None
  end.

Definition parseSvgString (H : Host) (svgContent : string) : outcome ParsedSvg :=
  let doc := parseFromString H svgContent in
  match querySelector ["parsererror"] [doc] with
  | Some _ => Throw "Invalid SVG: parse error"
  | None =>
      match querySelector ["svg"] [doc] with
      | None => Throw "Invalid SVG: missing <svg>"
      | Some (_, svg) =>
          let box :=
            match nonEmpty (getAttribute "viewBox" svg) with
            | Some viewBox =>
                match fourNumbers H viewBox with
                | Some (x, y, width, height) => Bounds.mk x y width height
                | None => Bounds.mk 0 0 100 100
                end
            | None =>
                let wAttr := parseNumber H (getAttribute "width" svg) in
                let hAttr := parseNumber H (getAttribute "height" svg) in
                Bounds.mk 0 0 (default 100 (truthyNum wAttr))
                          (default 100 (truthyNum hAttr))
            end in
          Ok {| viewBox := box; innerContent := innerHTML H (childNodes svg) |}
      end
  end.

(** ** Text fit ([textFit.ts]) *)

Definition DEFAULT_FONT_FAMILY : string := "Roboto".

Fixpoint replaceChar (c : ascii) (by_ : string) (s : string) : string :=
  match s with
  | EmptyString => EmptyString
  | String a r =>
      if Ascii.eqb a c then by_ +:+ replaceChar c by_ r
      else String a (replaceChar c by_ r)
  end.

Definition escapeXml (str : string) : string :=
  replaceChar "'" "&apos;"
    (replaceChar "034" "&quot;"
       (replaceChar ">" "&gt;"
          (replaceChar "<" "&lt;"
             (replaceChar "&" "&amp;" str)))).

Record TextMetrics := {
  tm_width : Q;
  tm_height : Q;
  ascent : Q;
  descent : Q
}.

Definition strLen (s : string) : Q := inject_Z (Z.of_nat (String.length s)).

Definition measureTextSvg (H : Host) (text fontFamily : string) (fontSize : Q)
  : TextMetrics :=
  let estimate :=
    {| tm_width := strLen text * fontSize * 0.6;
       tm_height := fontSize * 1.2;
       ascent := fontSize * 0.8;
       descent := fontSize * 0.2 |} in
  match textBBox H text fontFamily fontSize with
  | Some bbox =>
      if Qle_bool (Bounds.width bbox) 0 || Qle_bool (Bounds.height bbox) 0
      then estimate
      else
        let ascent := - Bounds.y bbox in
        {| tm_width := Bounds.width bbox;
           tm_height := Bounds.height bbox;
           ascent := ascent;
           descent := Bounds.height bbox - ascent |}
  | None => estimate
  end.

Record TextFit := { fontSize : Q; fit_x : Q; fit_y : Q }.

Definition calculateTextFit (H : Host) (text fontFamily : string)
           (box : Bounds.t) : TextFit :=
  if negb (Str.truthy text) || Qle_bool (Bounds.width box) 0
     || Qle_bool (Bounds.height box) 0
  then {| fontSize := 12;
          fit_x := Bounds.x box + Bounds.width box / 2;
          fit_y := Bounds.y box + Bounds.height box |}
  else
    let refSize := 100 in
    let measured := measureTextSvg H text fontFamily refSize in
    let measuredHeight :=
      if Qlt_bool 0 (tm_height measured) then tm_height measured
      else refSize * 1.2 in
    let measuredWidth :=
      if Qlt_bool 0 (tm_width measured) then tm_width measured
      else strLen text * refSize * 0.6 in
    let heightScale := (Bounds.height box * 0.99) / measuredHeight in
    let widthScale := (Bounds.width box * 0.99) / measuredWidth in
    let scale := Qmin heightScale widthScale in
    let fontSize := Qmax 1 (Qmin (refSize * scale) 2000) in
    let final := measureTextSvg H text fontFamily fontSize in
    let x := Bounds.x box + Bounds.width box / 2 in
    let boxBottom := Bounds.y box + Bounds.height box in
    let y := boxBottom - descent final in
    {| fontSize := fontSize; fit_x := x; fit_y := y |}.

(** ** Panel composer ([panelSvg.ts]) *)

Record ScannedSvgFile := {
  path : string;
  name : string;
  parentFolder : string
}.

Module Settings.
Record t := {
  panelWidthMm : Q;
  panelHeightMm : Q;
  cellSizeMm : Q;
  artWidthMm : option Q;
  artHeightMm : option Q;
  marginMm : Q;
  gutterMm : Q;
  labelHeightMm : Q;
  paddingMm : Q;
  showCellBorders : bool;
  removeOrnamentHole : option bool;
  addRoundBacker : option bool;
  roundBackerStrokeWidth : option Q;
  fontFamily : option string;
  labelColor : option string;
  layerSettings : option (list LayerConfig)
}.
End Settings.

Definition DEFAULT_LAYER_SETTINGS : option (list LayerConfig) := None.

(** What [JSON.stringify] turns into the cache key. *)
Record ProcessingKey := {
  key_layers : option (list LayerConfig);
  key_removeHole : bool;
  key_roundBacker : bool;
  key_backerStroke : Q
}.

Definition visibilityEqb (a b : Visibility) : bool :=
  match a, b with
  | hidden, hidden | show_black, show_black | show_color, show_color => true
  | _, _ => false
  end.

Definition renderModeEqb (a b : RenderMode) : bool :=
  match a, b with
  | fill_mode, fill_mode | stroke_mode, stroke_mode => true
  | _, _ => false
  end.

Definition optionEqb {A} (eqb : A -> A -> bool) (a b : option A) : bool :=
  match a, b with
  | Some x, Some y => eqb x y
  | None, None => true
  | _, _ => false
  end.

Fixpoint listEqb {A} (eqb : A -> A -> bool) (a b : list A) : bool :=
  match a, b with
  | [], [] => true
  | x :: a', y :: b' => eqb x y && listEqb eqb a' b'
  | _, _ => false
  end.

Definition layerEqb (a b : LayerConfig) : bool :=
  String.eqb (color a) (color b)
  && visibilityEqb (visibility a) (visibility b)
  && renderModeEqb (renderMode a) (renderMode b)
  && optionEqb String.eqb (outputColor a) (outputColor b).

Definition keyEqb (a b : ProcessingKey) : bool :=
  optionEqb (listEqb layerEqb) (key_layers a) (key_layers b)
  && Bool.eqb (key_removeHole a) (key_removeHole b)
  && Bool.eqb (key_roundBacker a) (key_roundBacker b)
  && Qeq_bool (key_backerStroke a) (key_backerStroke b).

Record CacheEntry := {
  ce_viewBox : Bounds.t;
  ce_innerContent : string;
  ce_svgText : string;
  ce_innerContentBounds : option Bounds.t;
  ce_processedContent : option string;
  ce_processedBounds : option Bounds.t;
  ce_processingKey : option ProcessingKey
}.

Definition Cache : Type := gmap string CacheEntry.

Definition readFileFromMap (fileMap : gmap string string) (path : string)
  : outcome string :=
  match fileMap !! path with
  | Some text => Ok text
  | None => Throw ("File not found: " +:+ path)
  end.

Definition measureInnerContentBounds (H : Host) (vb : Bounds.t)
           (innerContent : string) : option Bounds.t :=
  match contentBBox H vb innerContent with
  | Some bbox =>
      if Qle_bool (Bounds.width bbox) 0 || Qle_bool (Bounds.height bbox) 0
      then None else Some bbox
  | None => None
  end.

Definition dq : string := String "034" EmptyString.

(** [name="value"] *)
Definition xmlAttr (name value : string) : string :=
  name +:+ "=" +:+ dq +:+ value +:+ dq.

(** [s.replace(/\.svg$/i, '')] *)
Fixpoint stripSvgSuffix (s : string) : string :=
  match s with
  | EmptyString => EmptyString
  | String c r =>
      if String.eqb (Str.toLowerCase s) ".svg" then EmptyString
      else String c (stripSvgSuffix r)
  end.

(** One rendered cell: the item and the markup pushed on [parts] for it. *)
Record Cell := {
  cell_file : ScannedSvgFile;
  cell_parts : list string
}.

Section Composer.
Variable H : Host.
Variable settings : Settings.t.
Variable fileMap : gmap string string.

Let fontFamily := Str.orElse (Settings.fontFamily settings) DEFAULT_FONT_FAMILY.
Let labelColor := Str.orElse (Settings.labelColor settings) "#000000".
Let removeHole := default false (Settings.removeOrnamentHole settings).
Let roundBacker := default false (Settings.addRoundBacker settings).
Let backerStroke := default 0.5 (Settings.roundBackerStrokeWidth settings).
Let layerSettings :=
  match Settings.layerSettings settings with
  | Some l => Some l
  | None => DEFAULT_LAYER_SETTINGS
  end.

Definition processingKey : ProcessingKey :=
  {| key_layers := layerSettings;
     key_removeHole := removeHole;
     key_roundBacker := roundBacker;
     key_backerStroke := backerStroke |}.

Let num := numToString H.

(** The cache entry of a file, read and parsed on first use. *)
Definition lookupParsed (cache : Cache) (file : ScannedSvgFile)
  : outcome CacheEntry :=
  match cache !! path file with
  | Some parsed => Ok parsed
  | None =>
      match readFileFromMap fileMap (path file) with
      | Throw m => Throw m
      | Ok svgText =>
          match parseSvgString H svgText with
          | Throw m => Throw m
          | Ok base =>
              Ok {| ce_viewBox := viewBox base;
                    ce_innerContent := innerContent base;
                    ce_svgText := svgText;
                    ce_innerContentBounds := None;
                    ce_processedContent := None;
                    ce_processedBounds := None;
                    ce_processingKey := None |}
          end
      end
  end.

(** The processed variant of an entry, recomputed when it is missing or
    was made under another key. *)
Definition ensureProcessed (parsed : CacheEntry) : CacheEntry :=
  let fresh :=
    match nonEmpty (ce_processedContent parsed), ce_processingKey parsed with
    | Some _, Some k => keyEqb k processingKey
    | _, _ => false
    end in
  if fresh then parsed
  else
    let processedContent :=
      processLayersForPanel H (ce_svgText parsed) layerSettings
        {| removeOrnamentHole := removeHole;
           addRoundBacker := roundBacker;
           roundBackerStrokeWidth := backerStroke |} in
    {| ce_viewBox := ce_viewBox parsed;
       ce_innerContent := ce_innerContent parsed;
       ce_svgText := ce_svgText parsed;
       ce_innerContentBounds := ce_innerContentBounds parsed;
       ce_processedContent := Some processedContent;
       ce_processedBounds :=
         measureInnerContentBounds H (ce_viewBox parsed) processedContent;
       ce_processingKey := Some processingKey |}.

(** The bounds of the original content, measured when the processed
    content has none. *)
Definition ensureBounds (parsed : CacheEntry) : CacheEntry :=
  match ce_processedBounds parsed, ce_innerContentBounds parsed with
  | None, None =>
      {| ce_viewBox := ce_viewBox parsed;
         ce_innerContent := ce_innerContent parsed;
         ce_svgText := ce_svgText parsed;
         ce_innerContentBounds :=
           measureInnerContentBounds H (ce_viewBox parsed)
                                     (ce_innerContent parsed);
         ce_processedContent := ce_processedContent parsed;
         ce_processedBounds := ce_processedBounds parsed;
         ce_processingKey := ce_processingKey parsed |}
  | _, _ => parsed
  end.

(** The body of the loop over the items of a panel, for item [i] of the
    panel placed at [placement]. *)
Definition renderCell (cache : Cache) (i : nat) (placement : Placement)
           (file : ScannedSvgFile) : outcome (Cell * Cache) :=
  let cellX := place_x placement in
  let cellY := place_y placement in
  let cellS := place_size placement in
  let labelHeight := Settings.labelHeightMm settings in
  let padding := Settings.paddingMm settings in
  let artRegion :=
    Bounds.mk cellX cellY cellS (Qmax 0 (cellS - labelHeight)) in
  let labelRegion :=
    Bounds.mk cellX (cellY + cellS - labelHeight) cellS (Qmax 0 labelHeight) in
  let exactArtW :=
    default (Bounds.width artRegion - padding * 2) (Settings.artWidthMm settings) in
  let exactArtH :=
    default (Bounds.height artRegion - padding * 2) (Settings.artHeightMm settings) in
  let artBoxW := Qmax 0 exactArtW in
  let artBoxH := Qmax 0 exactArtH in
  let artBox :=
    Bounds.mk (Bounds.x artRegion + (Bounds.width artRegion - artBoxW) / 2)
              (Bounds.y artRegion + (Bounds.height artRegion - artBoxH) / 2)
              artBoxW artBoxH in
  let labelPadV := Qmin 1 (Bounds.height labelRegion * 0.1) in
  let labelBox :=
    Bounds.mk (Bounds.x labelRegion + padding)
              (Bounds.y labelRegion + labelPadV)
              (Qmax 0 (Bounds.width labelRegion - padding * 2))
              (Qmax 0 (Bounds.height labelRegion - labelPadV * 2)) in
  let border :=
    if Settings.showCellBorders settings then
      ["<rect " +:+ xmlAttr "x" (num cellX) +:+ " " +:+ xmlAttr "y" (num cellY)
       +:+ " " +:+ xmlAttr "width" (num cellS)
       +:+ " " +:+ xmlAttr "height" (num cellS)
       +:+ " " +:+ xmlAttr "fill" "none"
       +:+ " " +:+ xmlAttr "stroke" "#2563eb"
       +:+ " " +:+ xmlAttr "stroke-width" "0.2" +:+ "/>"]
    else [] in
  match lookupParsed cache file with
  | Throw m => Throw m
  | Ok parsed0 =>
      let parsed := ensureBounds (ensureProcessed parsed0) in
      let vb := ce_viewBox parsed in
      let renderInner := default EmptyString (ce_processedContent parsed) in
      let bounds :=
        match ce_processedBounds parsed with
        | Some b => b
        | None => default vb (ce_innerContentBounds parsed)
        end in
      let scale :=
        Qmin (Bounds.width artBox / Bounds.width bounds)
             (Bounds.height artBox / Bounds.height bounds) in
      let scaledW := Bounds.width bounds * scale in
      let scaledH := Bounds.height bounds * scale in
      let offsetX := (Bounds.width artBox - scaledW) / 2 in
      let offsetY := (Bounds.height artBox - scaledH) / 2 in
      let ornamentId :=
        match stripSvgSuffix (name file) with
        | EmptyString => "ornament-" +:+ num (inject_Z (Z.of_nat i))
        | s => s
        end in
      let transform :=
        "translate(" +:+ num (Bounds.x artBox + offsetX) +:+ ", "
        +:+ num (Bounds.y artBox + offsetY) +:+ ") scale(" +:+ num scale
        +:+ ") translate(" +:+ num (- Bounds.x bounds) +:+ ", "
        +:+ num (- Bounds.y bounds) +:+ ")" in
      let art :=
        ["<g " +:+ xmlAttr "id" (escapeXml ornamentId) +:+ ">";
         "<g " +:+ xmlAttr "transform" transform +:+ ">";
         renderInner; "</g>"; "</g>"] in
      let label :=
        if Qlt_bool 0 (Bounds.width labelBox) && Qlt_bool 0 (Bounds.height labelBox)
        then
          match parentFolder file with
          | EmptyString => []
          | label =>
              let fit := calculateTextFit H label fontFamily labelBox in
              ["<text " +:+ xmlAttr "x" (num (fit_x fit))
               +:+ " " +:+ xmlAttr "y" (num (fit_y fit))
               +:+ " " +:+ xmlAttr "font-family" fontFamily
               +:+ " " +:+ xmlAttr "font-size" (num (fontSize fit))
               +:+ " " +:+ xmlAttr "fill" labelColor
               +:+ " " +:+ xmlAttr "text-anchor" "middle" +:+ ">"
               +:+ escapeXml label +:+ "</text>"]
          end
        else [] in
      Ok ({| cell_file := file; cell_parts := border ++ art ++ label |},
          <[path file := parsed]> cache)
  end.

(** [for (let i = 0; i < items.length; i++)], left by [break] at the
    first item without a placement. *)
Fixpoint renderCells (cache : Cache) (i : nat) (placements : list Placement)
         (items : list ScannedSvgFile) : outcome (list Cell * Cache) :=
  match items with
  | [] => Ok ([], cache)
  | file :: rest =>
      match List.nth_error placements i with
      | None => Ok ([], cache)
      | Some placement =>
          match renderCell cache i placement file with
          | Throw m => Throw m
          | Ok (cell, cache1) =>
              match renderCells cache1 (S i) placements rest with
              | Throw m => Throw m
              | Ok (cells, cache2) => Ok (cell :: cells, cache2)
              end
          end
      end
  end.

(** [selected.slice(start, end)] *)
Definition slice {A} (l : list A) (start end_ : Z) : list A :=
  List.firstn (Z.to_nat end_ - Z.to_nat start) (List.skipn (Z.to_nat start) l).

(** [for (let panelIndex = 0; panelIndex < panelCount; panelIndex++)] *)
Fixpoint renderPanels (grid : GridLayout) (selected : list ScannedSvgFile)
         (cache : Cache) (panelIndexes : list Z)
  : outcome (list (list Cell)) :=
  match panelIndexes with
  | [] => Ok []
  | panelIndex :: rest =>
      let start := (panelIndex * capacityPerPanel grid)%Z in
      let end_ :=
        Z.min (Z.of_nat (length selected)) (start + capacityPerPanel grid) in
      let items := slice selected start end_ in
      match renderCells cache 0 (placements grid) items with
      | Throw m => Throw m
      | Ok (cells, cache1) =>
          match renderPanels grid selected cache1 rest with
          | Throw m => Throw m
          | Ok panels => Ok (cells :: panels)
          end
      end
  end.

(** The cells of every panel [buildPanelSvgs] emits.  Without a finite
    grid ([cellSizeMm + gutterMm] zero) the panel count is zero or NaN and
    no panel is emitted. *)
Definition buildPanelCells (selected : list ScannedSvgFile)
  : outcome (list (list Cell)) :=
  match computeGridLayout
          {| panelWidthMm := Settings.panelWidthMm settings;
             panelHeightMm := Settings.panelHeightMm settings;
             cellSizeMm := Settings.cellSizeMm settings;
             marginMm := Settings.marginMm settings;
             gutterMm := Settings.gutterMm settings |} with
  | None => Ok []
  | Some grid =>
      let panelCount :=
        computePanelCount (Z.of_nat (length selected)) (capacityPerPanel grid) in
      if (panelCount <=? 0)%Z then Ok []
      else renderPanels grid selected ∅ (upto panelCount)
  end.

Definition panelSvg (cells : list Cell) : string :=
  let w := num (Settings.panelWidthMm settings) in
  let h := num (Settings.panelHeightMm settings) in
  Str.join (String "010" EmptyString)
    (("<svg " +:+ xmlAttr "xmlns" "http://www.w3.org/2000/svg"
      +:+ " " +:+ xmlAttr "width" (w +:+ "mm")
      +:+ " " +:+ xmlAttr "height" (h +:+ "mm")
      +:+ " " +:+ xmlAttr "viewBox" ("0 0 " +:+ w +:+ " " +:+ h) +:+ ">")
     :: List.flat_map cell_parts cells ++ ["</svg>"]).

(** The field [panelSvgs] of the result. *)
Definition buildPanelSvgs (selected : list ScannedSvgFile)
  : outcome (list string) :=
  match buildPanelCells selected with
  | Throw m => Throw m
  | Ok panels => Ok (List.map panelSvg panels)
  end.
End Composer.

(** ** Concrete inputs used below *)

Definition gridOf (w h cell margin gutter : Q) : PanelLayoutSettings :=
  {| panelWidthMm := w; panelHeightMm := h; cellSizeMm := cell;
     marginMm := margin; gutterMm := gutter |}.

(** A canonical colour: [#] and six lower-case hexadecimal digits. *)
Definition isCanonicalHex (s : string) : bool :=
  match s with
  | String h (String r1 (String r2 (String g1 (String g2
      (String b1 (String b2 EmptyString)))))) =>
      Ascii.eqb h "#" && Str.isHexLower r1 && Str.isHexLower r2
      && Str.isHexLower g1 && Str.isHexLower g2
      && Str.isHexLower b1 && Str.isHexLower b2
  | _ => false
  end.



(** The token as the normaliser looks at it. *)
Definition cleaned (token : string) : string := Str.toLowerCase (Str.trim token).


(** A small host for the examples.  It parses every text to the document
    [doc], measures an element as the table [boxes] says for its [id]
    (and fails for the others), has no text metrics (so that the estimates
    are used), reads unsigned decimal integers and prints integers in
    decimal and other numbers as a fraction. *)
Module Demo.

Definition serializeAttr (a : attr) : string :=
  " " +:+ fst a +:+ "=" +:+ dq +:+ snd a +:+ dq.

Fixpoint serialize (n : node) : string :=
  match n with
  | Text s => s
  | Elem t a ks =>
      "<" +:+ t +:+ String.concat EmptyString (List.map serializeAttr a) +:+ ">"
      +:+ String.concat EmptyString (List.map serialize ks)
      +:+ "</" +:+ t +:+ ">"
  end.

Definition measure (boxes : list (string * Bounds.t)) (el : node)
  : option Bounds.t :=
  match getAttribute "id" el with
  | Some i =>
      option_map snd (List.find (fun p => String.eqb (fst p) i) boxes)
  | None => None
  end.

Definition readNumber (s : string) : option Q :=
  if Str.truthy s && Str.forallb Str.isDigit s
  then Some (inject_Z (Z.of_N (Str.parseInt10 s))) else None.

Fixpoint digitsOf (fuel : nat) (n : N) (acc : string) : string :=
  match fuel with
  | O => acc
  | S f =>
      let acc' := String (Ascii.ascii_of_N (48 + n mod 10)) acc in
      if (n / 10 =? 0)%N then acc' else digitsOf f (n / 10)%N acc'
  end.

Definition showZ (z : Z) : string :=
  let n := Z.to_N (Z.abs z) in
  (if (z <? 0)%Z then "-" else EmptyString)
  +:+ digitsOf (S (N.to_nat (N.log2 n))) n EmptyString.

Definition showQ (q : Q) : string :=
  let r := Qred q in
  match Qden r with
  | 1%positive => showZ (Qnum r)
  | d => showZ (Qnum r) +:+ "/" +:+ showZ (Zpos d)
  end.

Definition host (doc : node) (boxes : list (string * Bounds.t)) : Host :=
  {| parseFromString := fun _ => doc;
     innerHTML := fun ks => String.concat EmptyString (List.map serialize ks);
     getBBox := measure boxes;
     toNumber := readNumber;
     parseFloat := readNumber;
     numToString := showQ;
     textBBox := fun _ _ _ => None;
     contentBBox := fun _ _ => None |}.

(** A host for the examples that need no document. *)
Definition bare : Host := host (Text EmptyString) [].

End Demo.

Definition vb100 : list attr := [("viewBox", "0 0 100 100")].


(** An open, stroked outline. *)
Definition openPath : node :=
  Elem "path" [("id", "outline"); ("d", "M0 0 L100 100"); ("stroke", "#000000")] [].
Definition outlineDoc : node := Elem "svg" vb100 [openPath].
Definition outlineBoxes : list (string * Bounds.t) :=
  [("outline", Bounds.mk 0 0 100 100)].

Definition blackAsFill : LayerConfig :=
  {| color := "#000000"; visibility := show_color; renderMode := fill_mode;
     outputColor := None |}.

Definition holeAndBacker : ProcessingOptions :=
  {| removeOrnamentHole := true; addRoundBacker := true;
     roundBackerStrokeWidth := 0.5 |}.
Definition holeOnly : ProcessingOptions :=
  {| removeOrnamentHole := true; addRoundBacker := false;
     roundBackerStrokeWidth := 0.5 |}.
Definition backerOnly : ProcessingOptions :=
  {| removeOrnamentHole := false; addRoundBacker := true;
     roundBackerStrokeWidth := 0.5 |}.

(** A cut line with a hanging tab, and some art. *)
Definition cutDoc : node :=
  Elem "svg" vb100
       [Elem "path" [("id", "cut"); ("d", "M0 0 L40 50"); ("stroke", "#0000FF")] [];
        Elem "rect" [("fill", "#ff0000")] []].
Definition cutBoxes : list (string * Bounds.t) := [("cut", Bounds.mk 0 0 40 50)].


(** The conditions of the fallback in the words of the design document: a
    path with data and a visible stroke whose box reaches into the top 15%
    of the view box and spans at least 70% of its smaller side. *)
Definition spansAndReachesTop (H : Host) (vb : Bounds.t) (pathEl : node) : Prop :=
  exists d stroke bbox,
    getAttribute "d" pathEl = Some d /\ Str.truthy d = true
    /\ getAttribute "stroke" pathEl = Some stroke /\ Str.truthy stroke = true
    /\ Str.toLowerCase stroke <> "none"
    /\ getBBox H pathEl = Some bbox
    /\ Bounds.y bbox <= Bounds.y vb + Bounds.height vb * 0.15
    /\ 0.7 <= Qmax (Bounds.width bbox) (Bounds.height bbox)
              / Qmin (Bounds.width vb) (Bounds.height vb).

Definition isHoleCover (n : node) : bool :=
  match getAttribute "data-hole-cover" n with
  | Some _ => true
  | None => false
  end.

Definition outlineText : string :=
  "<svg viewBox='0 0 100 100'><path id='outline' d='M0 0 L100 100' stroke='#000000'/></svg>".
Definition cutText : string :=
  "<svg viewBox='0 0 100 100'><path id='cut' d='M0 0 L40 50' stroke='#0000FF'/><rect fill='#ff0000'/></svg>".

(** Art without paint attributes (drawn in the default black), next to a
    red rectangle. *)
Definition barePath : node := Elem "path" [("d", "M0 0 L10 10 Z")] [].
Definition plainDoc : node :=
  Elem "svg" vb100 [Elem "g" [] [barePath]; Elem "rect" [("fill", "#ff0000")] []].
Definition plainText : string :=
  "<svg viewBox='0 0 100 100'><g><path d='M0 0 L10 10 Z'/></g><rect fill='#ff0000'/></svg>".

Definition isShapeNode (n : node) : bool := hasTag shapeSelector n.

(** A shape node has a visible colour when its resolved fill or its
    resolved stroke is present and not [none]. *)
Definition hasVisiblePaint (styleMap : StyleMap) (el : node) : bool :=
  let colors := getElementColors el styleMap in
  match visibleColor (fill colors), visibleColor (stroke colors) with
  | None, None => false
  | _, _ => true
  end.

(** The document without its shape nodes that have a visible colour; the
    shape nodes that stay lose their [class] and [style] attributes. *)
Fixpoint dropPainted (styleMap : StyleMap) (n : node) : list node :=
  match n with
  | Text _ => [n]
  | Elem t a ks =>
      let ks' := List.flat_map (dropPainted styleMap) ks in
      if isShapeNode n then
        if hasVisiblePaint styleMap n then []
        else [Elem t (removeAttr "style" (removeAttr "class" a)) ks']
      else [Elem t a ks']
  end.

(** Settings for a 300 by 300 panel with 60 mm cells. *)
Definition panel300 (gutter : Q) : Settings.t :=
  {| Settings.panelWidthMm := 300;
     Settings.panelHeightMm := 300;
     Settings.cellSizeMm := 60;
     Settings.artWidthMm := None;
     Settings.artHeightMm := None;
     Settings.marginMm := 0;
     Settings.gutterMm := gutter;
     Settings.labelHeightMm := 10;
     Settings.paddingMm := 2;
     Settings.showCellBorders := false;
     Settings.removeOrnamentHole := None;
     Settings.addRoundBacker := None;
     Settings.roundBackerStrokeWidth := None;
     Settings.fontFamily := None;
     Settings.labelColor := None;
     Settings.layerSettings := None |}.

Definition item (k : nat) : ScannedSvgFile :=
  let n := Demo.showZ (Z.of_nat k) in
  {| path := "set/" +:+ n +:+ ".svg"; name := n +:+ ".svg"; parentFolder := "set" |}.

Definition items (n : nat) : list ScannedSvgFile := List.map item (List.seq 0 n).

Definition filesOf (l : list ScannedSvgFile) (text : string) : gmap string string :=
  list_to_map (List.map (fun f => (path f, text)) l).

Definition panelSizes (r : outcome (list (list Cell))) : option (list nat) :=
  match r with
  | Ok panels => Some (List.map (@length Cell) panels)
  | Throw _ => None
  end.

(** The body of [normalizeColorToHex], on the trimmed and lower-cased
    token. *)
Definition normalizeCleaned (c : string) : string :=
  if Str.startsWith "#" c then
    match c with
    | String _ (String c1 (String c2 (String c3 EmptyString))) =>
        String "#" (String c1 (String c1 (String c2 (String c2
          (String c3 (String c3 EmptyString))))))
    | _ => c
    end
  else
    match namedColors c with
    | Some v => v
    | None =>
        match rgbMatch c with
        | Some (r, g, b) => "#" +:+ hexByte r +:+ hexByte g +:+ hexByte b
        | None => c
        end
    end.

(** Characters that [trim] and [toLowerCase] leave alone wherever they
    stand. *)
Definition cleanChar (c : ascii) : bool :=
  negb (Str.isSpace c) && Ascii.eqb (Str.lowerChar c) c.

(** The colour a rule paints with whatever the colour it matched. *)
Definition fixedTarget (layerConfig : LayerConfig) : option string :=
  match nonEmpty (outputColor layerConfig) with
  | Some c => Some c
  | None =>
      match visibility layerConfig with
      | show_black => Some "#000000"
      | _ => None
      end
  end.

(** What the second visit needs to know about the colour a rule painted
    with in the render mode [mode]: it is no paint, or it is matched by a
    visible rule of that mode that paints it in itself. *)
Definition returnsTo (layers : list LayerConfig) (mode : RenderMode)
           (target : string) : Prop :=
  visibleColor (Some target) = None
  \/ exists layerConfig,
      findLayerConfig target layers = Some layerConfig
      /\ visibility layerConfig <> hidden
      /\ renderMode layerConfig = mode
      /\ targetColorOf layerConfig target = target.

(** A rule list is stable when the fixed colour of each of its visible
    rules is no paint at all, or is matched by a visible rule with the same
    render mode that paints it in that same colour. *)
Definition stableRules (layers : list LayerConfig) : Prop :=
  forall layerConfig target,
    In layerConfig layers ->
    visibility layerConfig <> hidden ->
    fixedTarget layerConfig = Some target ->
    returnsTo layers (renderMode layerConfig) target.



(** A property of the tag and the attributes of every element of a
    document. *)
Definition everywhere (P : string -> list attr -> Prop) (forest : list node) : Prop :=
  Forall (fun m => P (tagName m) (attributes m)) (elemsOf forest).

Definition shapeTag (t : string) : bool := List.existsb (String.eqb t) shapeSelector.





(** The attributes without [class] and [style]. *)
Definition stripped (a : list attr) : list attr :=
  removeAttr "style" (removeAttr "class" a).


(** The layout settings [buildPanelSvgs] passes to the grid. *)
Definition layoutOf (settings : Settings.t) : PanelLayoutSettings :=
  {| panelWidthMm := Settings.panelWidthMm settings;
     panelHeightMm := Settings.panelHeightMm settings;
     cellSizeMm := Settings.cellSizeMm settings;
     marginMm := Settings.marginMm settings;
     gutterMm := Settings.gutterMm settings |}.

(** ** Paths ([pathUtils.ts]) *)

Definition slash : ascii := "/".
Definition backslash : ascii := "092".

(** [/[\\/]/] *)
Definition isSlash (c : ascii) : bool := Ascii.eqb c slash || Ascii.eqb c backslash.

(** [s.includes(c)] for one character *)
Fixpoint includes (c : ascii) (s : string) : bool :=
  match s with
  | EmptyString => false
  | String a r => Ascii.eqb a c || includes c r
  end.

(** [s.endsWith(c)] for one character *)
Fixpoint endsWithChar (c : ascii) (s : string) : bool :=
  match s with
  | EmptyString => false
  | String a EmptyString => Ascii.eqb a c
  | String _ r => endsWithChar c r
  end.

(** [s.slice(0, -1)] *)
Fixpoint dropLast (s : string) : string :=
  match s with
  | EmptyString => EmptyString
  | String _ EmptyString => EmptyString
  | String a r => String a (dropLast r)
  end.

(** [s.slice(0, n)] *)
Fixpoint sliceTo (n : nat) (s : string) : string :=
  match n, s with
  | S k, String a r => String a (sliceTo k r)
  | _, _ => EmptyString
  end.

(** [s.lastIndexOf(c)] for one character; [-1] as [None]. *)
Fixpoint lastIndexOf (c : ascii) (s : string) : option nat :=
  match s with
  | EmptyString => None
  | String a r =>
      match lastIndexOf c r with
      | Some i => Some (S i)
      | None => if Ascii.eqb a c then Some O else None
      end
  end.

(** [s.split(re)] for a regular expression [re] that matches one character
    of the class [sep]: a field ends at every separator. *)
Fixpoint splitAt (sep : ascii -> bool) (s : string) (field : string) : list string :=
  match s with
  | EmptyString => [field]
  | String c r =>
      if sep c then field :: splitAt sep r EmptyString
      else splitAt sep r (field +:+ String c EmptyString)
  end.

(** The separator is a string of one character; it is held as that
    character. *)
Definition getPathSeparator (path : string) : ascii :=
  if includes backslash path then backslash else slash.

Definition joinPath (parent child : string) : string :=
  let sep := getPathSeparator parent in
  let normalizedParent :=
    if endsWithChar sep parent then dropLast parent else parent in
  normalizedParent +:+ String sep child.

Definition getBasename (path : string) : string :=
  let parts := List.filter Str.truthy (splitAt isSlash path EmptyString) in
  match List.last parts EmptyString with
  | EmptyString => path
  | part => part
  end.

Definition stripExtension (fileName : string) : string :=
  match lastIndexOf "." fileName with
  | Some (S k) => sliceTo (S k) fileName
  | _ => fileName
  end.

Definition getBasenameNoExt (path : string) : string :=
  stripExtension (getBasename path).

Definition getParentDir (path : string) : option string :=
  let sep := getPathSeparator path in
  match lastIndexOf sep path with
  | Some (S k) => Some (sliceTo (S k) path)
  | _ => None
  end.

Definition getParentFolderName (path : string) : string :=
  match nonEmpty (getParentDir path) with
  | None => EmptyString
  | Some parent => getBasename parent
  end.

(** The loop of [getNthParentFolderName]: [None] when it returns early. *)
Fixpoint climb (levelsUp : nat) (dir : string) : option string :=
  match levelsUp with
  | O => Some dir
  | S k =>
      match nonEmpty (getParentDir dir) with
      | None => None
      | Some up => climb k up
      end
  end.

(** [levelsUp] is the number of times the loop body runs. *)
Definition getNthParentFolderName (filePath : string) (levelsUp : nat) : string :=
  match nonEmpty (getParentDir filePath) with
  | None => EmptyString
  | Some dir =>
      match climb levelsUp dir with
      | None => EmptyString
      | Some dir' => getBasename dir'
      end
  end.

(** ** Export file names ([exportPanels.ts]) *)

(** [String(n)] for a non-negative integer: its decimal digits, most
    significant first; [fuel] bounds their number. *)
Fixpoint decimalAux (fuel : nat) (n : N) (acc : string) : string :=
  match fuel with
  | O => acc
  | S f =>
      let acc' := String (Ascii.ascii_of_N (48 + n mod 10)) acc in
      if (n / 10 =? 0)%N then acc' else decimalAux f (n / 10)%N acc'
  end.

Definition decimal (n : N) : string :=
  decimalAux (S (N.to_nat (N.log2 n))) n EmptyString.

Fixpoint fillString (n : nat) (c : ascii) : string :=
  match n with
  | O => EmptyString
  | S k => String c (fillString k c)
  end.

(** [s.padStart(width, c)] for one fill character *)
Definition padStart (width : nat) (c : ascii) (s : string) : string :=
  fillString (width - String.length s) c +:+ s.

Definition padIndex (i total : N) : string :=
  let width := Nat.max 3 (String.length (decimal total)) in
  padStart width "0" (decimal i).

(** The list the loop of [generateExportFileNames] builds, for a panel
    count that is a natural number. *)
Definition generateExportFileNames (baseName : string) (panelCount : nat)
  : list string :=
  List.map
    (fun i =>
       let suffix :=
         if (1 <? panelCount)%nat
         then "_" +:+ padIndex (N.of_nat (i + 1)) (N.of_nat panelCount)
         else EmptyString in
       baseName +:+ suffix +:+ ".svg")
    (List.seq 0 panelCount).

(** ** Folder scan ([fsScan.ts]) *)

(** [s.endsWith(suffix)] *)
Fixpoint endsWith (suffix s : string) : bool :=
  String.eqb s suffix
  || match s with
     | EmptyString => false
     | String _ r => endsWith suffix r
     end.

Definition isSvgFileName (name : string) : bool :=
  endsWith ".svg" (Str.toLowerCase name).

(** A [File] of the browser: the two names the scan reads and the text
    [file.text()] resolves to. *)
Record BrowserFile := {
  webkitRelativePath : string;
  file_name : string;
  file_text : string
}.

Record ScanResult := {
  scan_root : string;
  scan_files : list ScannedSvgFile;
  scan_fileMap : gmap string string
}.

(** [relativePath.split('/')[0]] *)
Definition firstSegment (relativePath : string) : string :=
  List.hd EmptyString (splitAt (Ascii.eqb slash) relativePath EmptyString).

(** [l.sort((a, b) => cmp(a, b))]: ascending and stable. *)
Fixpoint insertCmp {A} (cmp : A -> A -> Z) (x : A) (l : list A) : list A :=
  match l with
  | [] => [x]
  | y :: r =>
      if (cmp y x <=? 0)%Z then y :: insertCmp cmp x r
      else x :: y :: r
  end.

Definition sortCmp {A} (cmp : A -> A -> Z) (l : list A) : list A :=
  List.fold_left (fun acc x => insertCmp cmp x acc) l [].

(** The state of the loop of [scanFilesFromFileList]. *)
Record ScanState := {
  st_files : list ScannedSvgFile;
  st_fileMap : gmap string string;
  st_rootFolder : string
}.

Definition scanStep (st : ScanState) (file : BrowserFile) : ScanState :=
  let relativePath :=
    match webkitRelativePath file with
    | EmptyString => file_name file
    | p => p
    end in
  let rootFolder :=
    if negb (Str.truthy (st_rootFolder st)) && includes slash relativePath
    then firstSegment relativePath
    else st_rootFolder st in
  if isSvgFileName (file_name file) then
    {| st_files :=
         st_files st ++
         [{| path := relativePath;
             name := getBasename relativePath;
             parentFolder := getParentFolderName relativePath |}];
       st_fileMap := <[relativePath := file_text file]> (st_fileMap st);
       st_rootFolder := rootFolder |}
  else
    {| st_files := st_files st;
       st_fileMap := st_fileMap st;
       st_rootFolder := rootFolder |}.

(** [localeCompare] is the collation of the browser.  The text of a file
    stands for the [File] the map holds. *)
Definition scanFilesFromFileList (localeCompare : string -> string -> Z)
           (fileList : list BrowserFile) : ScanResult :=
  let st :=
    List.fold_left scanStep fileList
      {| st_files := []; st_fileMap := ∅; st_rootFolder := EmptyString |} in
  {| scan_root :=
       match st_rootFolder st with
       | EmptyString => "Selected Files"
       | r => r
       end;
     scan_files :=
       sortCmp (fun a b => localeCompare (path a) (path b)) (st_files st);
     scan_fileMap := st_fileMap st |}.
(** ** Further notions and inputs used below *)

(** Every path of the cache was read from the file map. *)
Definition cacheOfMap (fileMap : gmap string string) (cache : Cache) : Prop :=
  forall p entry, cache !! p = Some entry -> fileMap !! p <> None.


(** No character of [s] is one of [chars]. *)
Definition avoids (chars : list ascii) (s : string) : bool :=
  Str.forallb (fun a => negb (List.existsb (Ascii.eqb a) chars)) s.

(** The characters that open or close markup and attribute values. *)
Definition markupChars : list ascii := ["'"; "034"; ">"; "<"]%char.

(** A drawing without a view box and without a size. *)
Definition unsizedDoc : node := Elem "svg" [] [barePath].


(** The first of the fill and the stroke that is visible: [primaryColor]. *)
Definition primaryColorOf (colors : Colors) : option string :=
  match visibleColor (fill colors) with
  | Some f => Some f
  | None => visibleColor (stroke colors)
  end.

(** A filled rectangle with a class, and a style map for the class. *)
Definition classedRect : node :=
  Elem "rect" [("class", "st0"); ("fill", "#ff0000"); ("style", "fill: #00c100")] [].
Definition greenRule : ParsedStyleRule :=
  {| rule_fill := Some "#0000ff"; rule_stroke := None; rule_strokeWidth := None |}.
Definition classedOnly : node :=
  Elem "rect" [("class", "st0"); ("fill", "#ff0000")] [].
Definition redStroke : LayerConfig :=
  {| color := "#ff0000"; visibility := show_color; renderMode := stroke_mode;
     outputColor := None |}.
Definition redFill : LayerConfig :=
  {| color := "#ff0000"; visibility := show_black; renderMode := fill_mode;
     outputColor := None |}.
Definition redRect : node := Elem "rect" [("fill", "#ff0000")] [].

(** A candidate the cut line search can pick: cut-coloured, measurable,
    and with a box of positive width. *)
Definition eligible (H : Host) (styleMap : StyleMap) (el : node)
           (bbox : Bounds.t) : Prop :=
  isCutColored styleMap el = true
  /\ safeGetBBox H el = Some bbox
  /\ 0 < Bounds.width bbox.

(** [best] is a widest eligible candidate of [seen], if there is one. *)
Definition widestOf (H : Host) (styleMap : StyleMap)
           (seen : list (nat * node)) (best : option (nat * Bounds.t)) : Prop :=
  match best with
  | Some (i, b) =>
      (exists el, In (i, el) seen /\ eligible H styleMap el b)
      /\ forall j el bbox, In (j, el) seen -> eligible H styleMap el bbox ->
                           Bounds.width bbox <= Bounds.width b
  | None => forall j el bbox, In (j, el) seen -> ~ eligible H styleMap el bbox
  end.

(** A name without a path separator. *)
Definition noSlash (s : string) : bool :=
  Str.forallb (fun c => negb (isSlash c)) s.

(** [parent] without one trailing separator: [normalizedParent]. *)
Definition normalizedParent (parent : string) : string :=
  if endsWithChar (getPathSeparator parent) parent then dropLast parent
  else parent.

(** What the loop of the scan keeps true: every listed file is in the
    map, and carries the names derived from its path. *)
Definition scanSound (st : ScanState) : Prop :=
  forall f, In f (st_files st) ->
    st_fileMap st !! path f <> None
    /\ name f = getBasename (path f)
    /\ parentFolder f = getParentFolderName (path f).

(** * Properties *)

(** ** Comparisons on rationals *)

Lemma Qlt_bool_iff a b : Qlt_bool a b = true <-> a < b.
Proof.
  unfold Qlt_bool. rewrite Bool.negb_true_iff.
  split; intros Hab.
  - apply Qnot_le_lt. intros Hle. apply Qle_bool_iff in Hle. congruence.
  - destruct (Qle_bool b a) eqn:E; [|reflexivity].
    apply Qle_bool_iff in E. exfalso. exact (Qlt_not_le _ _ Hab E).
Qed.

Lemma Qle_bool_false a b : a < b -> Qle_bool b a = false.
Proof.
  intros Hab. destruct (Qle_bool b a) eqn:E; [|reflexivity].
  apply Qle_bool_iff in E. exfalso. exact (Qlt_not_le _ _ Hab E).
Qed.


(** ** Grid layout *)

Lemma computeGridLayout_capacity settings g :
  computeGridLayout settings = Some g ->
  capacityPerPanel g = Z.max 0 (cols g * rows g).
Proof.
  unfold computeGridLayout.
  destruct (Qeq_bool _ 0); [discriminate|].
  intros [= <-]. reflexivity.
Qed.




(** ** Colour normaliser *)




Lemma canonical_starts_with_hash c :
  isCanonicalHex c = true -> Str.startsWith "#" c = true.
Proof.
  destruct c as [|h r]; [discriminate|].
  destruct r as [|? [|? [|? [|? [|? [|? [|? ?]]]]]]]; try discriminate.
  simpl. destruct (Ascii.eqb_spec h "#") as [->|]; [reflexivity|discriminate].
Qed.




(** ** Text fit *)

Section TextFit.
Variable H : Host.
Variables text fontFamily : string.
Variables x y width : Q.

Let fit (height : Q) : TextFit :=
  calculateTextFit H text fontFamily (Bounds.mk x y width height).

(** C9, as amended.  For a non-empty text and a box of positive width,
    the font size does not decrease when the box height grows within the
    positive heights. *)
Theorem fontSize_monotone (h1 h2 : Q) :
  Str.truthy text = true ->
  0 < width -> 0 < h1 -> h1 <= h2 ->
  fontSize (fit h1) <= fontSize (fit h2).
Proof.
  intros Ht Hw Hh1 Hle.
  assert (Hh2 : 0 < h2) by (eapply Qlt_le_trans; eauto).
  unfold fit, calculateTextFit. cbn [Bounds.width Bounds.height].
  rewrite Ht, (Qle_bool_false _ _ Hw), (Qle_bool_false _ _ Hh1),
    (Qle_bool_false _ _ Hh2).
  cbn [negb orb fontSize].
  set (measured := measureTextSvg H text fontFamily 100).
  set (mh := if Qlt_bool 0 (tm_height measured) then tm_height measured
             else 100 * 1.2).
  set (ws := (width * 0.99) / _).
  assert (Hmh : 0 < mh).
  { unfold mh. destruct (Qlt_bool 0 (tm_height measured)) eqn:E.
    - now apply Qlt_bool_iff.
    - reflexivity. }
  apply Q.max_le_compat_l, Q.min_le_compat_r.
  apply Qmult_le_l; [reflexivity|].
  apply Q.min_le_compat_r.
  apply Qmult_le_compat_r.
  - apply Qmult_le_compat_r; [assumption|discriminate].
  - apply Qlt_le_weak, Qinv_lt_0_compat, Hmh.
Qed.
End TextFit.

Lemma fontSize_monotone_witness :
  fontSize (calculateTextFit Demo.bare "Label" "Roboto" (Bounds.mk 0 0 50 5))
  <= fontSize (calculateTextFit Demo.bare "Label" "Roboto" (Bounds.mk 0 0 50 8)).
Proof.
  apply (fontSize_monotone Demo.bare "Label" "Roboto" 0 0 50 5 8);
    first [reflexivity | discriminate].
Defined.

(** C9, as stated, fails: a box without height takes the fallback size 12,
    and a box of the same width that is half a unit high is fitted at the
    minimum size 1. *)
Lemma fontSize_monotone_counterexample :
  fontSize (calculateTextFit Demo.bare "Label" "Roboto" (Bounds.mk 0 0 50 0)) == 12
  /\ fontSize (calculateTextFit Demo.bare "Label" "Roboto" (Bounds.mk 0 0 50 0.5)) == 1
  /\ ~ fontSize (calculateTextFit Demo.bare "Label" "Roboto" (Bounds.mk 0 0 50 0))
       <= fontSize (calculateTextFit Demo.bare "Label" "Roboto" (Bounds.mk 0 0 50 0.5)).
Proof.
  split; [reflexivity|]. split; [reflexivity|].
  vm_compute. intros H. apply H. reflexivity.
Qed.

(** ** Documents *)

Lemma node_induction (P : node -> Prop) :
  (forall s, P (Text s)) ->
  (forall t a ks, Forall P ks -> P (Elem t a ks)) ->
  forall n, P n.
Proof.
  intros HText HElem. fix IH 1. intros [t a ks|s].
  - apply HElem. induction ks as [|k ks IHks]; constructor.
    + apply IH.
    + exact IHks.
  - apply HText.
Qed.

Lemma nonEmpty_Some o s : nonEmpty o = Some s -> o = Some s /\ Str.truthy s = true.
Proof. destruct o as [[|c r]|]; simpl; intros [= <-]; auto. Qed.

Lemma nonEmpty_truthy s : Str.truthy s = true -> nonEmpty (Some s) = Some s.
Proof. destruct s; [discriminate|reflexivity]. Qed.

Lemma getAttr_setAttr_eq k v a : getAttr k (setAttr k v a) = Some v.
Proof.
  induction a as [|[k' v'] a IH]; simpl.
  - now rewrite String.eqb_refl.
  - destruct (String.eqb k' k) eqn:E; simpl; rewrite E; auto.
Qed.

Lemma getAttr_setAttr_ne k k' v a :
  k <> k' -> getAttr k (setAttr k' v a) = getAttr k a.
Proof.
  intros Hne. induction a as [|[k0 v0] a IH]; simpl.
  - destruct (String.eqb_spec k' k); [congruence|reflexivity].
  - destruct (String.eqb_spec k0 k') as [->|]; simpl.
    + destruct (String.eqb_spec k' k); [congruence|reflexivity].
    + now rewrite IH.
Qed.

(** ** The error branch *)



(** ** Fill mode on an open stroke *)

(** C1 fails on the code.  For a shape that has a stroke and no fill, is
    not closed, and matches a visible rule in fill mode, the branch that
    keeps the stroke sets [stroke] to the target colour, and the statement
    after the branch overwrites it with [none]: the shape is left with
    neither fill nor stroke. *)
Theorem fill_mode_open_stroke_lost layers styleMap el s layerConfig primary :
  let colors := getElementColors el styleMap in
  visibleColor (fill colors) = None ->
  visibleColor (stroke colors) = Some s ->
  matchLayer colors s layers = Some (layerConfig, primary) ->
  visibility layerConfig <> hidden ->
  renderMode layerConfig = fill_mode ->
  canFill el = false ->
  let out := visitElement (Some layers) styleMap el in
  snd out = false
  /\ getAttr "fill" (fst out) = Some "none"
  /\ getAttr "stroke" (fst out) = Some "none"
  /\ getAttr "stroke-width" (fst out) = Some (Str.orElse (strokeWidth colors) "0.5").
Proof.
  intros colors Hfill Hstroke Hmatch Hvis Hmode Hopen out.
  subst out. unfold visitElement. fold colors.
  rewrite Hfill, Hstroke, Hmatch, Hmode, Hopen.
  destruct (visibility layerConfig); [congruence| |]; cbn [fst snd];
    (split; [reflexivity|]);
    rewrite getAttr_setAttr_eq;
    rewrite !getAttr_setAttr_ne, !getAttr_setAttr_eq by discriminate;
    rewrite getAttr_setAttr_ne, getAttr_setAttr_eq by discriminate; auto.
Qed.

Lemma fill_mode_open_stroke_lost_witness :
  visitElement (Some [blackAsFill]) ∅ openPath
  = ([("id", "outline"); ("d", "M0 0 L100 100"); ("stroke", "none");
      ("fill", "none"); ("stroke-width", "0.5")], false)
  /\ getAttr "stroke" (fst (visitElement (Some [blackAsFill]) ∅ openPath))
     = Some "none".
Proof.
  split; [reflexivity|].
  apply (fill_mode_open_stroke_lost [blackAsFill] ∅ openPath "#000000"
                                    blackAsFill "#000000");
    first [reflexivity | discriminate].
Defined.

(** The same on a whole document. *)
Lemma fill_mode_open_stroke_document :
  processImported (Demo.host outlineDoc outlineBoxes) outlineText outlineDoc
                  (Some [blackAsFill]) defaultOptions
  = [Elem "path" [("id", "outline"); ("d", "M0 0 L100 100"); ("stroke", "none");
                  ("fill", "none"); ("stroke-width", "0.5")] []].
Proof. reflexivity. Qed.

(** ** Round backer *)






(** The example of the design document on a whole document: the cut line
    is hidden by the inverted preset, and the circle is drawn from its
    saved box. *)
Lemma round_backer_document :
  processImported (Demo.host cutDoc cutBoxes) cutText cutDoc
                  (Some Presets.inverted) backerOnly
  = [Elem "rect" [("fill", "none"); ("stroke", "#ff0000"); ("stroke-width", "1")] [];
     Elem "circle" [("cx", "20"); ("cy", "30"); ("r", "20"); ("fill", "none");
                    ("stroke", "#000000"); ("stroke-width", "1/2")] []].
Proof. reflexivity. Qed.

(** ** Ornament hole fallback *)

Lemma indexed_In {A} (a : A) l k :
  In a l -> exists i, In (i, a) (indexed k l).
Proof.
  revert k. induction l as [|b l IH]; intros k; simpl; [tauto|].
  intros [->|Hin].
  - eauto.
  - destruct (IH (S k) Hin) as [i Hi]. eauto.
Qed.

Lemma querySelectorAll_In sel forest el :
  In el (elemsOf forest) -> hasTag sel el = true ->
  exists i, In (i, el) (querySelectorAll sel forest).
Proof.
  intros Hin Htag. destruct (indexed_In _ _ 0%nat Hin) as [i Hi].
  exists i. apply List.filter_In. auto.
Qed.

Lemma holeGeometry_spec H vb pathEl :
  spansAndReachesTop H vb pathEl -> holeGeometry H vb pathEl = true.
Proof.
  intros (d & s & bbox & Hd & Hdt & Hs & Hst & Hnone & Hbox & Htop & Hspan).
  unfold holeGeometry, safeGetBBox.
  rewrite Hd, Hs, (nonEmpty_truthy _ Hdt), (nonEmpty_truthy _ Hst), Hbox.
  destruct (String.eqb_spec (Str.toLowerCase s) "none"); [contradiction|].
  unfold Qlt_bool.
  apply Qle_bool_iff in Htop. rewrite Htop. cbn [negb].
  apply Qle_bool_iff in Hspan. rewrite Hspan. reflexivity.
Qed.

(** C6, as amended.  With ornament-hole removal enabled, the round backer
    disabled and a view box, when after all other processing some path
    with a visible stroke spans at least 70% of the smaller side of the
    view box and reaches into its top 15%, the white cover circle is
    appended: radius 5% of the smaller side, centred horizontally, 6% of
    the height from the top. *)
Theorem hole_cover_appended H svgText svg layers options vb pathEl :
  removeOrnamentHole options = true ->
  addRoundBacker options = false ->
  getSvgViewBox H svg = Some vb ->
  In pathEl (elemsOf (beforeCover H svgText svg layers options)) ->
  tagName pathEl = "path" ->
  spansAndReachesTop H vb pathEl ->
  processImported H svgText svg layers options
  = beforeCover H svgText svg layers options
    ++ [Elem "circle"
             [("cx", numToString H (Bounds.x vb + Bounds.width vb / 2));
              ("cy", numToString H (Bounds.y vb + Bounds.height vb * 0.06));
              ("r", numToString H (Qmin (Bounds.width vb) (Bounds.height vb) * 0.05));
              ("fill", "#ffffff");
              ("stroke", "none");
              ("data-hole-cover", "true")]
             []].
Proof.
  intros Hhole Hbacker Hvb Hin Htag Hspan.
  unfold processImported, coverStage. rewrite Hhole, Hbacker, Hvb. cbn [negb andb].
  unfold coverOrnamentHoleWithBackground.
  destruct (querySelectorAll_In ["path"] _ pathEl Hin) as [i Hi].
  { unfold hasTag. rewrite Htag. reflexivity. }
  replace (List.existsb _ _) with true; [reflexivity|].
  symmetry. apply List.existsb_exists. exists (i, pathEl).
  split; [assumption|]. now apply holeGeometry_spec.
Qed.

Lemma outline_spans :
  spansAndReachesTop (Demo.host outlineDoc outlineBoxes) (Bounds.mk 0 0 100 100)
                     openPath.
Proof.
  exists "M0 0 L100 100", "#000000", (Bounds.mk 0 0 100 100).
  repeat split; try reflexivity; try discriminate.
Qed.

Lemma hole_cover_appended_witness :
  processImported (Demo.host outlineDoc outlineBoxes) outlineText outlineDoc
                  None holeOnly
  = [openPath;
     Elem "circle" [("cx", "50"); ("cy", "6"); ("r", "5"); ("fill", "#ffffff");
                    ("stroke", "none"); ("data-hole-cover", "true")] []].
Proof.
  apply (hole_cover_appended (Demo.host outlineDoc outlineBoxes) outlineText
                             outlineDoc None holeOnly (Bounds.mk 0 0 100 100)
                             openPath);
    first [reflexivity | (left; reflexivity) | exact outline_spans].
Defined.

(** C6, as stated, fails: with the round backer enabled as well, the
    fallback is skipped.  The outline is still there after all processing,
    stroked, as large as the view box and starting at its top, and no cover
    circle is in the result. *)
Lemma hole_cover_counterexample :
  let H := Demo.host outlineDoc outlineBoxes in
  let out := processImported H outlineText outlineDoc None holeAndBacker in
  removeOrnamentHole holeAndBacker = true
  /\ In openPath (elemsOf out)
  /\ spansAndReachesTop H (Bounds.mk 0 0 100 100) openPath
  /\ List.existsb isHoleCover (elemsOf out) = false.
Proof.
  cbv zeta. split; [reflexivity|]. split; [left; reflexivity|].
  split; [exact outline_spans|reflexivity].
Qed.

(** ** Node removal *)

Lemma candidate_is_shape n :
  hasTag candidateSelector n && negb (isGroup n) = hasTag shapeSelector n.
Proof.
  unfold hasTag, candidateSelector, isGroup.
  rewrite List.existsb_app.
  cbn [List.existsb shapeSelector].
  repeat match goal with
         | |- context [String.eqb (tagName n) ?s] =>
             destruct (String.eqb_spec (tagName n) s) as [->|];
             [reflexivity|]
         end.
  reflexivity.
Qed.

Lemma elemsOf_app l1 l2 : elemsOf (l1 ++ l2) = elemsOf l1 ++ elemsOf l2.
Proof. unfold elemsOf. apply List.flat_map_app. Qed.

Lemma elemsOf_cons n l : elemsOf (n :: l) = elems n ++ elemsOf l.
Proof. reflexivity. Qed.

Lemma processImported_plain H svgText svg layers options :
  removeOrnamentHole options = false ->
  addRoundBacker options = false ->
  processImported H svgText svg layers options
  = applyLayers layers (parseSvgStyleBlock svgText) (childNodes svg).
Proof.
  intros Hhole Hbacker.
  unfold processImported, beforeCover, coverStage, backerStage, savedCutLine,
    holeStage.
  now rewrite Hhole, Hbacker.
Qed.

(** Passthrough keeps every element, whatever its tag. *)
Lemma layerNode_passthrough_tags styleMap n :
  List.map tagName (elemsOf (layerNode None styleMap n))
  = List.map tagName (elems n).
Proof.
  induction n as [s|t a ks IH] using node_induction; [reflexivity|].
  cbn [layerNode]. rewrite candidate_is_shape.
  assert (Hks : List.map tagName (elemsOf (List.flat_map (layerNode None styleMap) ks))
                = List.map tagName (List.flat_map elems ks)).
  { induction IH as [|k ks Hk _ IHks]; [reflexivity|].
    cbn [List.flat_map]. rewrite elemsOf_app, !List.map_app.
    now rewrite Hk, IHks. }
  unfold elemsOf in Hks |- *.
  destruct (hasTag shapeSelector (Elem t a ks));
    cbn [visitElement List.flat_map elems List.map tagName app];
    rewrite List.app_nil_r; cbn [List.map tagName]; now rewrite Hks.
Qed.

Lemma layerForest_passthrough_tags styleMap forest :
  List.map tagName (elemsOf (layerForest None styleMap forest))
  = List.map tagName (elemsOf forest).
Proof.
  induction forest as [|n l IH]; [reflexivity|].
  unfold layerForest. cbn [List.flat_map].
  rewrite elemsOf_app, elemsOf_cons, !List.map_app.
  rewrite layerNode_passthrough_tags. f_equal. exact IH.
Qed.

Lemma findLayerConfig_nil c : findLayerConfig c [] = None.
Proof. unfold findLayerConfig. now destruct (_ || _). Qed.

Lemma visitElement_no_rules styleMap el :
  visitElement (Some []) styleMap el
  = (removeAttr "style" (removeAttr "class" (attributes el)),
     hasVisiblePaint styleMap el).
Proof.
  unfold visitElement, hasVisiblePaint, matchLayer.
  destruct (visibleColor (fill _)) as [f|];
    destruct (visibleColor (stroke _)) as [s|];
    rewrite ?findLayerConfig_nil; reflexivity.
Qed.

Lemma layerNode_no_rules styleMap n :
  layerNode (Some []) styleMap n = dropPainted styleMap n.
Proof.
  induction n as [s|t a ks IH] using node_induction; [reflexivity|].
  cbn [layerNode dropPainted].
  rewrite candidate_is_shape, visitElement_no_rules.
  assert (Hks : List.flat_map (layerNode (Some []) styleMap) ks
                = List.flat_map (dropPainted styleMap) ks).
  { induction IH as [|k ks Hk _ IHks]; [reflexivity|].
    cbn [List.flat_map]. now rewrite Hk, IHks. }
  rewrite Hks. reflexivity.
Qed.

(** C3, as amended.  With ornament-hole removal and the round backer
    disabled: in passthrough mode the document keeps every element it has
    once the style block is taken out; with an empty rule list the result
    is the document without its shape nodes that have a visible resolved
    fill or stroke (and without the groups this empties), while the shape
    nodes with neither stay. *)
Theorem layer_removal H svgText svg options :
  removeOrnamentHole options = false ->
  addRoundBacker options = false ->
  let styleMap := parseSvgStyleBlock svgText in
  let imported := removeStyleElement (childNodes svg) in
  List.map tagName (elemsOf (processImported H svgText svg None options))
  = List.map tagName (elemsOf imported)
  /\ processImported H svgText svg (Some []) options
     = removeEmptyGroups (List.flat_map (dropPainted styleMap) imported).
Proof.
  intros Hhole Hbacker styleMap imported.
  rewrite !processImported_plain by assumption.
  unfold applyLayers. fold styleMap. fold imported. split.
  - apply layerForest_passthrough_tags.
  - f_equal. unfold layerForest.
    induction imported as [|n l IH]; [reflexivity|].
    cbn [List.flat_map]. now rewrite layerNode_no_rules, IH.
Qed.

Lemma layer_removal_witness :
  List.map tagName
    (elemsOf (processImported Demo.bare plainText plainDoc None defaultOptions))
  = ["g"; "path"; "rect"]
  /\ processImported Demo.bare plainText plainDoc (Some []) defaultOptions
     = [Elem "g" [] [barePath]].
Proof.
  apply (layer_removal Demo.bare plainText plainDoc defaultOptions);
    reflexivity.
Defined.

(** C3, as stated, fails in its second half: with an empty rule list a
    shape node without any resolved paint is not marked, and stays. *)
Lemma layer_removal_counterexample :
  let out := processImported Demo.bare plainText plainDoc (Some []) defaultOptions in
  isShapeNode barePath = true
  /\ In barePath (elemsOf out)
  /\ hasShape out = true.
Proof.
  cbv zeta. split; [reflexivity|]. split; [|reflexivity].
  right. left. reflexivity.
Qed.

(** ** Normalising twice *)















Lemma normalize_unfold t : normalizeColorToHex t = normalizeCleaned (cleaned t).
Proof. reflexivity. Qed.

Lemma clean_lower s : Str.forallb cleanChar s = true -> Str.toLowerCase s = s.
Proof.
  induction s as [|c r IH]; simpl; [reflexivity|].
  intros H. apply andb_prop in H as [Hc Hr].
  apply andb_prop in Hc as [_ Hc]. apply Ascii.eqb_eq in Hc.
  now rewrite Hc, IH.
Qed.

Lemma clean_trimEnd s : Str.forallb cleanChar s = true -> Str.trimEnd s = s.
Proof.
  induction s as [|c r IH]; simpl; [reflexivity|].
  intros H. apply andb_prop in H as [Hc Hr].
  apply andb_prop in Hc as [Hc _]. apply Bool.negb_true_iff in Hc.
  rewrite (IH Hr), Hc. now destruct r.
Qed.

Lemma clean_trimStart s : Str.forallb cleanChar s = true -> Str.trimStart s = s.
Proof.
  destruct s as [|c r]; simpl; [reflexivity|].
  intros H. apply andb_prop in H as [Hc _].
  apply andb_prop in Hc as [Hc _]. apply Bool.negb_true_iff in Hc.
  now rewrite Hc.
Qed.

Lemma clean_cleaned s : Str.forallb cleanChar s = true -> cleaned s = s.
Proof.
  intros H. unfold cleaned, Str.trim.
  now rewrite (clean_trimStart _ H), (clean_trimEnd _ H), (clean_lower _ H).
Qed.

Lemma hexLower_clean c : Str.isHexLower c = true -> cleanChar c = true.
Proof. destruct c as [[] [] [] [] [] [] [] []]; vm_compute; congruence. Qed.


Lemma forallb_append p a b :
  Str.forallb p (a +:+ b) = Str.forallb p a && Str.forallb p b.
Proof.
  induction a as [|c r IH]; simpl; [reflexivity|].
  now rewrite IH, andb_assoc.
Qed.











(** ** Panel composer *)

Lemma upto_length n : length (upto n) = Z.to_nat n.
Proof. unfold upto. now rewrite List.length_map, List.length_seq. Qed.

Lemma flat_map_length_const {A B} (f : A -> list B) k l :
  (forall a, length (f a) = k) -> length (List.flat_map f l) = (length l * k)%nat.
Proof.
  intros Hf. induction l as [|a l IH]; [reflexivity|].
  cbn [List.flat_map length]. rewrite List.length_app, Hf, IH. lia.
Qed.

(** On a grid with columns and rows there is a placement for every slot
    of the capacity. *)
Lemma placements_length settings grid :
  computeGridLayout settings = Some grid ->
  (0 < cols grid)%Z -> (0 < rows grid)%Z ->
  length (placements grid) = Z.to_nat (capacityPerPanel grid).
Proof.
  unfold computeGridLayout. destruct (Qeq_bool _ 0); [discriminate|].
  set (c := Qfloor ((panelWidthMm settings - marginMm settings * 2
                     + gutterMm settings)
                    / (cellSizeMm settings + gutterMm settings))).
  set (r := Qfloor ((panelHeightMm settings - marginMm settings * 2
                     + gutterMm settings)
                    / (cellSizeMm settings + gutterMm settings))).
  intros [= <-]. cbn [cols rows placements capacityPerPanel].
  intros Hc Hr.
  destruct (Z.ltb_spec 0 c); [|lia]. destruct (Z.ltb_spec 0 r); [|lia].
  cbn [andb].
  rewrite (flat_map_length_const _ (Z.to_nat c))
    by (intros k; now rewrite List.length_map, upto_length).
  rewrite upto_length, Z.max_r by nia.
  rewrite Z2Nat.inj_mul by lia. lia.
Qed.

Section Panels.
Variable H : Host.
Variable settings : Settings.t.
Variable fileMap : gmap string string.






Lemma slice_length {A} (l : list A) a b :
  (length (slice l a b) <= Z.to_nat b - Z.to_nat a)%nat.
Proof. unfold slice. rewrite List.length_firstn. lia. Qed.

End Panels.

Lemma upto_nonneg n : Forall (fun idx => (0 <= idx)%Z) (upto n).
Proof.
  unfold upto. apply List.Forall_forall. intros x Hx.
  apply List.in_map_iff in Hx as (k & <- & _). lia.
Qed.

Lemma computePanelCount_nonneg n c :
  (0 <= n)%Z -> (0 <= computePanelCount n c)%Z.
Proof.
  intros Hn. unfold computePanelCount.
  destruct (Z.leb_spec c 0); [lia|].
  assert (Hq : 0 <= inject_Z n / inject_Z c).
  { apply Qle_shift_div_l.
    - change 0 with (inject_Z 0). rewrite <- Zlt_Qlt. lia.
    - rewrite Qmult_0_l. change 0 with (inject_Z 0). rewrite <- Zle_Qle. lia. }
  apply Qceiling_resp_le in Hq. exact Hq.
Qed.


(** The end-to-end example of the design document holds on the code:
    27 items on a 300 by 300 panel with 60 mm cells make two panels of 25
    and 2 items. *)
Lemma panels_27_items :
  computePanelCount 27 25 = 2%Z
  /\ panelSizes (buildPanelCells (Demo.host outlineDoc outlineBoxes) (panel300 0)
                                 (filesOf (items 27) outlineText) (items 27))
     = Some [25; 2]%nat.
Proof. split; vm_compute; reflexivity. Qed.

(** C7 fails on the code.  A gutter of -100 mm makes [cols] and [rows]
    both -5; the capacity is their product 25, but no placement is made.
    For 27 items two panels are emitted, and the loop over the items of
    each panel is left at once: the panels hold no item, where the slices
    hold 25 and 2. *)
Theorem panels_negative_grid_empty H fileMap :
  option_map capacityPerPanel
             (computeGridLayout (gridOf 300 300 60 0 (-100))) = Some 25%Z
  /\ computePanelCount 27 25 = 2%Z
  /\ buildPanelCells H (panel300 (-100)) fileMap (items 27) = Ok [[]; []]
  /\ List.map (@length ScannedSvgFile)
              [slice (items 27) 0 25; slice (items 27) 25 27] = [25; 2]%nat.
Proof. repeat split; vm_compute; reflexivity. Qed.

(** ** Applying the layer transform twice *)

Lemma getAttr_removeAttr_eq k a : getAttr k (removeAttr k a) = None.
Proof.
  induction a as [|[k' v] a IH]; simpl; [reflexivity|].
  destruct (String.eqb k' k) eqn:E; simpl; [exact IH|]. now rewrite E.
Qed.

Lemma getAttr_removeAttr_ne k k' a :
  k <> k' -> getAttr k (removeAttr k' a) = getAttr k a.
Proof.
  intros Hne. induction a as [|[k0 v] a IH]; simpl; [reflexivity|].
  destruct (String.eqb_spec k0 k') as [->|]; simpl.
  - destruct (String.eqb_spec k' k); [congruence|exact IH].
  - now rewrite IH.
Qed.









Lemma stripped_class a : getAttr "class" (stripped a) = None.
Proof.
  unfold stripped. rewrite getAttr_removeAttr_ne by discriminate.
  apply getAttr_removeAttr_eq.
Qed.

Lemma stripped_style a : getAttr "style" (stripped a) = None.
Proof. apply getAttr_removeAttr_eq. Qed.

Lemma stripped_other k a :
  k <> "class" -> k <> "style" -> getAttr k (stripped a) = getAttr k a.
Proof.
  intros H1 H2. unfold stripped. now rewrite !getAttr_removeAttr_ne.
Qed.



Lemma visit_kids layers styleMap t a ks ks' :
  visitElement layers styleMap (Elem t a ks)
  = visitElement layers styleMap (Elem t a ks').
Proof. reflexivity. Qed.




Section SecondVisit.
Variable layers : list LayerConfig.
Variable styleMap : StyleMap.
Variables (t : string) (b : list attr) (ks : list node).
Hypothesis Hclass : getAttr "class" b = None.
Hypothesis Hstyle : getAttr "style" b = None.




End SecondVisit.

Ltac attr_lookup :=
  repeat first
    [ rewrite getAttr_setAttr_eq
    | rewrite getAttr_setAttr_ne by discriminate
    | rewrite stripped_class
    | rewrite stripped_style ];
  try reflexivity.


Lemma everywhere_app P l1 l2 :
  everywhere P (l1 ++ l2) <-> everywhere P l1 /\ everywhere P l2.
Proof. unfold everywhere. rewrite elemsOf_app. apply Forall_app. Qed.

Lemma everywhere_cons P n l :
  everywhere P (n :: l) <-> everywhere P [n] /\ everywhere P l.
Proof. apply (everywhere_app P [n] l). Qed.

Lemma everywhere_elem P t a ks :
  everywhere P [Elem t a ks] <-> P t a /\ everywhere P ks.
Proof.
  unfold everywhere, elemsOf. cbn [List.flat_map elems].
  rewrite List.app_nil_r. split.
  - intros H. inversion H; subst. auto.
  - intros [H1 H2]. constructor; assumption.
Qed.

Lemma everywhere_nil P : everywhere P [].
Proof. constructor. Qed.

Lemma everywhere_text P s : everywhere P [Text s].
Proof. constructor. Qed.


(** A property of the input that each kept element hands on holds all
    over the output of the walk. *)
Lemma layerForest_everywhere (P Q : string -> list attr -> Prop) layers styleMap :
  (forall t a, P t a -> shapeTag t = false -> Q t a) ->
  (forall t a ks a',
      P t a -> shapeTag t = true ->
      visitElement layers styleMap (Elem t a ks) = (a', false) -> Q t a') ->
  forall forest,
    everywhere P forest -> everywhere Q (layerForest layers styleMap forest).
Proof.
  intros Hother Hshape.
  assert (Hnode : forall n, everywhere P [n] ->
                            everywhere Q (layerNode layers styleMap n)).
  { induction n as [s|t a ks IH] using node_induction; intros HP.
    - apply everywhere_text.
    - apply everywhere_elem in HP as [Hta Hks].
      assert (Hks' : everywhere Q (List.flat_map (layerNode layers styleMap) ks)).
      { clear Hta. induction IH as [|k ks Hk _ IHks]; [apply everywhere_nil|].
        apply everywhere_cons in Hks as [Hk' Hks].
        cbn [List.flat_map]. apply everywhere_app. auto. }
      cbn [layerNode]. rewrite candidate_is_shape.
      change (hasTag shapeSelector (Elem t a ks)) with (shapeTag t).
      destruct (shapeTag t) eqn:Et.
      + destruct (visitElement layers styleMap (Elem t a ks)) as [a' marked] eqn:Ev.
        destruct marked; [apply everywhere_nil|].
        apply everywhere_elem. split; [|assumption].
        eapply Hshape; eauto.
      + apply everywhere_elem. auto. }
  induction forest as [|n l IH]; intros HP; [apply everywhere_nil|].
  apply everywhere_cons in HP as [Hn Hl].
  unfold layerForest. cbn [List.flat_map]. apply everywhere_app.
  split; [now apply Hnode|now apply IH].
Qed.


Lemma hasShape_app l1 l2 : hasShape (l1 ++ l2) = hasShape l1 || hasShape l2.
Proof. unfold hasShape. now rewrite elemsOf_app, List.existsb_app. Qed.

Lemma hasShape_elem t a ks : hasShape [Elem t a ks] = shapeTag t || hasShape ks.
Proof.
  unfold hasShape, elemsOf. cbn [List.flat_map elems].
  now rewrite List.app_nil_r.
Qed.

Lemma group_not_shape t : String.eqb t "g" = true -> shapeTag t = false.
Proof. intros H. apply String.eqb_eq in H. now subst. Qed.

(** Removing the empty groups removes no shape. *)
Lemma hasShape_prune forest : hasShape (removeEmptyGroups forest) = hasShape forest.
Proof.
  assert (Hnode : forall n, hasShape (pruneGroup n) = hasShape [n]).
  { induction n as [s|t a ks IH] using node_induction; [reflexivity|].
    assert (Hks : hasShape (List.flat_map pruneGroup ks) = hasShape ks).
    { induction IH as [|k ks Hk _ IHks]; [reflexivity|].
      cbn [List.flat_map]. rewrite hasShape_app, Hk, IHks.
      symmetry. apply (hasShape_app [k] ks). }
    cbn [pruneGroup]. rewrite hasShape_elem.
    destruct (String.eqb t "g") eqn:Eg; cbn [andb].
    - destruct (hasShape ks) eqn:Es; cbn [negb].
      + now rewrite hasShape_elem, Hks.
      + now rewrite (group_not_shape _ Eg).
    - now rewrite hasShape_elem, Hks. }
  induction forest as [|n l IH]; [reflexivity|].
  unfold removeEmptyGroups in *. cbn [List.flat_map].
  rewrite hasShape_app, Hnode, IH. symmetry. apply (hasShape_app [n] l).
Qed.


Lemma removeEmptyGroups_everywhere P forest :
  everywhere P forest -> everywhere P (removeEmptyGroups forest).
Proof.
  assert (Hnode : forall n, everywhere P [n] -> everywhere P (pruneGroup n)).
  { induction n as [s|t a ks IH] using node_induction; intros HP; [exact HP|].
    apply everywhere_elem in HP as [Hta Hks].
    cbn [pruneGroup]. destruct (_ && _); [apply everywhere_nil|].
    apply everywhere_elem. split; [assumption|].
    clear Hta. induction IH as [|k ks Hk _ IHks]; [apply everywhere_nil|].
    apply everywhere_cons in Hks as [Hk' Hks].
    cbn [List.flat_map]. apply everywhere_app. auto. }
  induction forest as [|n l IH]; intros HP; [apply everywhere_nil|].
  apply everywhere_cons in HP as [Hn Hl].
  unfold removeEmptyGroups. cbn [List.flat_map]. apply everywhere_app.
  split; [now apply Hnode|now apply IH].
Qed.





Lemma standard_stable : stableRules Presets.standard.
Proof.
  intros layerConfig target Hin Hvis Htarget.
  repeat (destruct Hin as [<-|Hin];
          [vm_compute in Htarget; injection Htarget as <-; right; eexists;
           split; [vm_compute; reflexivity|];
           split; [discriminate|]; split; reflexivity|]).
  destruct Hin.
Qed.



(** ** Further properties of the grid *)

Lemma nth_error_seq_lt s n i :
  (i < n)%nat -> List.nth_error (List.seq s n) i = Some (s + i)%nat.
Proof.
  revert s i. induction n as [|n IH]; intros s i Hi; [lia|].
  destruct i as [|i]; cbn [List.seq List.nth_error].
  - f_equal. lia.
  - rewrite IH by lia. f_equal. lia.
Qed.

Lemma nth_error_upto n i :
  (i < Z.to_nat n)%nat -> List.nth_error (upto n) i = Some (Z.of_nat i).
Proof.
  intros Hi. unfold upto.
  rewrite List.nth_error_map, nth_error_seq_lt by exact Hi. reflexivity.
Qed.

Lemma In_upto n x : In x (upto n) -> (0 <= x < n)%Z.
Proof.
  unfold upto. intros Hx.
  apply List.in_map_iff in Hx as (k & <- & Hk).
  apply List.in_seq in Hk. lia.
Qed.

Lemma nth_error_flat_map_const {A B} (f : A -> list B) k l :
  (forall a, length (f a) = k) ->
  forall r c a,
    List.nth_error l r = Some a -> (c < k)%nat ->
    List.nth_error (List.flat_map f l) (r * k + c) = List.nth_error (f a) c.
Proof.
  intros Hf. induction l as [|a0 l IH]; intros r c a Hr Hc.
  - destruct r; discriminate.
  - cbn [List.flat_map]. destruct r as [|r]; cbn [List.nth_error] in Hr.
    + injection Hr as ->. cbn [Nat.mul Nat.add].
      apply List.nth_error_app1. now rewrite Hf.
    + rewrite List.nth_error_app2 by (rewrite Hf; lia).
      rewrite Hf.
      replace (S r * k + c - k)%nat with (r * k + c)%nat by lia.
      now apply IH.
Qed.

(** X1.  [computeGridLayout] makes a placement for every slot of the
    capacity when the grid has columns and rows, and none otherwise. *)
Theorem placements_fill_capacity settings grid :
  computeGridLayout settings = Some grid ->
  if ((0 <? cols grid) && (0 <? rows grid))%Z
  then length (placements grid) = Z.to_nat (capacityPerPanel grid)
       /\ capacityPerPanel grid = (cols grid * rows grid)%Z
  else placements grid = [].
Proof.
  unfold computeGridLayout. destruct (Qeq_bool _ 0); [discriminate|].
  set (c := Qfloor ((panelWidthMm settings - marginMm settings * 2
                     + gutterMm settings)
                    / (cellSizeMm settings + gutterMm settings))).
  set (r := Qfloor ((panelHeightMm settings - marginMm settings * 2
                     + gutterMm settings)
                    / (cellSizeMm settings + gutterMm settings))).
  intros [= <-]. cbn [cols rows placements capacityPerPanel].
  destruct (Z.ltb_spec 0 c); destruct (Z.ltb_spec 0 r); cbn [andb];
    try reflexivity.
  split; [|apply Z.max_r; nia].
  rewrite (flat_map_length_const _ (Z.to_nat c))
    by (intros k; now rewrite List.length_map, upto_length).
  rewrite upto_length, Z.max_r by nia.
  rewrite Z2Nat.inj_mul by lia. lia.
Qed.

Lemma placements_fill_capacity_witness :
  (exists grid,
     computeGridLayout (gridOf 300 300 60 0 0) = Some grid
     /\ length (placements grid) = 25%nat
     /\ length (placements grid) = Z.to_nat (capacityPerPanel grid))
  /\ (exists grid,
        computeGridLayout (gridOf 300 100 60 60 0) = Some grid
        /\ placements grid = []).
Proof.
  split; eexists; (split; [reflexivity|]).
  - split; [reflexivity|].
    exact (proj1 (placements_fill_capacity (gridOf 300 300 60 0 0) _ eq_refl)).
  - exact (placements_fill_capacity (gridOf 300 100 60 60 0) _ eq_refl).
Defined.

(** X2.  The placements are in row-major order: the placement at position
    [k] of the list has [indexInPanel = k], stands in column [k mod cols]
    and row [k / cols], one cell pitch apart, and has the cell size. *)
Theorem placements_row_major settings grid k :
  computeGridLayout settings = Some grid ->
  (0 < cols grid)%Z -> (0 < rows grid)%Z ->
  (k < Z.to_nat (capacityPerPanel grid))%nat ->
  let pitch := cellSizeMm settings + gutterMm settings in
  List.nth_error (placements grid) k
  = Some {| indexInPanel := Z.of_nat k;
            place_x := marginMm settings
                       + inject_Z (Z.of_nat k mod cols grid) * pitch;
            place_y := marginMm settings
                       + inject_Z (Z.of_nat k / cols grid) * pitch;
            place_size := cellSizeMm settings |}.
Proof.
  intros Hgrid Hc Hr Hk pitch.
  rewrite (computeGridLayout_capacity _ _ Hgrid) in Hk.
  revert Hgrid Hc Hr Hk. unfold computeGridLayout.
  destruct (Qeq_bool _ 0); [discriminate|].
  set (nc := Qfloor ((panelWidthMm settings - marginMm settings * 2
                      + gutterMm settings)
                     / (cellSizeMm settings + gutterMm settings))).
  set (nr := Qfloor ((panelHeightMm settings - marginMm settings * 2
                      + gutterMm settings)
                     / (cellSizeMm settings + gutterMm settings))).
  intros [= <-]. cbn [cols rows placements]. intros Hc Hr Hk.
  destruct (Z.ltb_spec 0 nc); [|lia]. destruct (Z.ltb_spec 0 nr); [|lia].
  cbn [andb].
  rewrite Z.max_r in Hk by nia.
  set (r := Z.to_nat (Z.of_nat k / nc)).
  set (c := Z.to_nat (Z.of_nat k mod nc)).
  pose proof (Z.mod_pos_bound (Z.of_nat k) nc ltac:(lia)) as Hmod.
  pose proof (Z.div_pos (Z.of_nat k) nc ltac:(lia) ltac:(lia)) as Hdiv.
  pose proof (Z.div_mod (Z.of_nat k) nc ltac:(lia)) as Hdm.
  assert (Hrlt : (Z.of_nat k / nc < nr)%Z).
  { apply Z.div_lt_upper_bound; [lia|]. nia. }
  assert (Hkk : k = (r * Z.to_nat nc + c)%nat).
  { unfold r, c. apply Nat2Z.inj.
    rewrite Nat2Z.inj_add, Nat2Z.inj_mul, !Z2Nat.id by lia. lia. }
  rewrite Hkk at 1.
  rewrite (nth_error_flat_map_const _ (Z.to_nat nc) _
             ltac:(intros a; now rewrite List.length_map, upto_length)
             r c (Z.of_nat r)).
  - rewrite List.nth_error_map, nth_error_upto by (unfold c; lia).
    cbn [option_map]. unfold r, c. rewrite !Z2Nat.id by lia.
    do 2 f_equal. lia.
  - apply nth_error_upto. unfold r. lia.
  - unfold c. lia.
Qed.

Lemma placements_row_major_witness :
  exists grid,
    computeGridLayout (gridOf 300 300 60 0 0) = Some grid
    /\ List.nth_error (placements grid) 7
       = Some {| indexInPanel := 7;
                 place_x := 0 + inject_Z (7 mod 5) * (60 + 0);
                 place_y := 0 + inject_Z (7 / 5) * (60 + 0);
                 place_size := 60 |}.
Proof.
  eexists. split; [reflexivity|].
  apply (placements_row_major (gridOf 300 300 60 0 0) _ 7%nat eq_refl);
    vm_compute; first [reflexivity | lia].
Defined.

(** X3.  With a positive cell pitch every cell lies inside the margins of
    the panel, on both axes. *)
Theorem placements_inside_margins settings grid :
  computeGridLayout settings = Some grid ->
  0 < cellSizeMm settings + gutterMm settings ->
  Forall (fun p =>
            marginMm settings <= place_x p
            /\ place_x p + place_size p <= panelWidthMm settings - marginMm settings
            /\ marginMm settings <= place_y p
            /\ place_y p + place_size p <= panelHeightMm settings - marginMm settings)
         (placements grid).
Proof.
  intros Hgrid Hpitch.
  revert Hgrid. unfold computeGridLayout.
  destruct (Qeq_bool _ 0); [discriminate|].
  set (pitch := cellSizeMm settings + gutterMm settings) in *.
  set (qc := (panelWidthMm settings - marginMm settings * 2 + gutterMm settings)
             / pitch).
  set (qr := (panelHeightMm settings - marginMm settings * 2 + gutterMm settings)
             / pitch).
  set (nc := Qfloor qc). set (nr := Qfloor qr).
  intros [= <-]. cbn [placements].
  destruct ((0 <? nc)%Z && (0 <? nr)%Z); [|constructor].
  subst nc nr.
  assert (Hne : ~ pitch == 0).
  { intros E. rewrite E in Hpitch. discriminate. }
  assert (Hfit : forall num i, (0 <= i < Qfloor (num / pitch))%Z ->
            0 <= inject_Z i * pitch /\ inject_Z i * pitch + pitch <= num).
  { intros num i [Hi0 Hi1]. split.
    - apply Qmult_le_0_compat; [|now apply Qlt_le_weak].
      change 0 with (inject_Z 0). rewrite <- Zle_Qle. exact Hi0.
    - assert (E : inject_Z i * pitch + pitch == inject_Z (i + 1) * pitch)
        by (rewrite inject_Z_plus; ring).
      rewrite E.
      assert (E' : num == num / pitch * pitch) by (field; exact Hne).
      rewrite E' at 1.
      apply Qmult_le_compat_r; [|now apply Qlt_le_weak].
      apply Qle_trans with (inject_Z (Qfloor (num / pitch))); [|apply Qfloor_le].
      rewrite <- Zle_Qle. lia. }
  apply List.Forall_forall. intros p Hp.
  apply List.in_flat_map in Hp as (r & Hr & Hp).
  apply List.in_map_iff in Hp as (c & <- & Hc).
  apply In_upto in Hr. apply In_upto in Hc.
  destruct (Hfit _ c Hc) as [Hc0 Hc1]. destruct (Hfit _ r Hr) as [Hr0 Hr1].
  cbn [place_x place_y place_size].
  set (tc := inject_Z c * pitch) in *. set (tr := inject_Z r * pitch) in *.
  unfold pitch in Hc1, Hr1.
  repeat split; lra.
Qed.

Lemma placements_inside_margins_witness :
  exists grid,
    computeGridLayout (gridOf 300 200 60 10 5) = Some grid
    /\ length (placements grid) = 8%nat
    /\ Forall (fun p =>
                 10 <= place_x p /\ place_x p + place_size p <= 300 - 10
                 /\ 10 <= place_y p /\ place_y p + place_size p <= 200 - 10)
              (placements grid).
Proof.
  eexists. split; [reflexivity|]. split; [reflexivity|].
  apply (placements_inside_margins (gridOf 300 200 60 10 5) _ eq_refl).
  reflexivity.
Defined.

Lemma computePanelCount_bounds n c :
  (0 < c)%Z ->
  ((computePanelCount n c - 1) * c < n <= computePanelCount n c * c)%Z.
Proof.
  intros Hc. unfold computePanelCount.
  destruct (Z.leb_spec c 0); [lia|].
  set (q := inject_Z n / inject_Z c).
  assert (Hcq : 0 < inject_Z c).
  { change 0 with (inject_Z 0). rewrite <- Zlt_Qlt. exact Hc. }
  assert (Hn : q * inject_Z c == inject_Z n).
  { unfold q. rewrite Qmult_comm, Qmult_div_r; [reflexivity|].
    intros E. rewrite E in Hcq. discriminate. }
  split.
  - rewrite Zlt_Qlt, inject_Z_mult, <- Hn.
    apply Qmult_lt_compat_r; [exact Hcq|].
    replace (Qceiling q - 1)%Z with (Qceiling q + -1)%Z by lia.
    apply Qceiling_lt.
  - rewrite Zle_Qle, inject_Z_mult, <- Hn.
    apply Qmult_le_compat_r; [apply Qle_ceiling|now apply Qlt_le_weak].
Qed.

(** X4.  For a positive capacity [computePanelCount] is the least number
    of panels that hold all items; for a capacity that is not positive it
    is zero. *)
Theorem computePanelCount_least n c :
  ((0 < c)%Z ->
   ((computePanelCount n c - 1) * c < n <= computePanelCount n c * c)%Z)
  /\ ((c <= 0)%Z -> computePanelCount n c = 0%Z).
Proof.
  split; intros Hc.
  - now apply computePanelCount_bounds.
  - unfold computePanelCount. destruct (Z.leb_spec c 0); [reflexivity|lia].
Qed.

Lemma computePanelCount_least_witness :
  computePanelCount 27 25 = 2%Z
  /\ ((computePanelCount 27 25 - 1) * 25 < 27 <= computePanelCount 27 25 * 25)%Z
  /\ computePanelCount 27 (-5) = 0%Z.
Proof.
  split; [reflexivity|]. split.
  - apply (proj1 (computePanelCount_least 27 25)). lia.
  - apply (proj2 (computePanelCount_least 27 (-5))). lia.
Defined.
(** ** Further properties of the panel composer *)

Lemma slice_chunk {A} (l : list A) (c : Z) (j : nat) :
  (0 < c)%Z ->
  slice l (Z.of_nat j * c)
        (Z.min (Z.of_nat (length l)) ((Z.of_nat j + 1) * c))
  = List.firstn (Z.to_nat c) (List.skipn (j * Z.to_nat c) l).
Proof.
  intros Hc. unfold slice.
  replace (Z.to_nat (Z.of_nat j * c)) with (j * Z.to_nat c)%nat by nia.
  set (m := (j * Z.to_nat c)%nat).
  destruct (Z.le_ge_cases ((Z.of_nat j + 1) * c) (Z.of_nat (length l))) as [Hle|Hge].
  - rewrite Z.min_r by exact Hle. f_equal. nia.
  - rewrite Z.min_l by exact Hge. rewrite Nat2Z.id.
    rewrite !List.firstn_all2; [reflexivity| |];
      rewrite List.length_skipn; nia.
Qed.

(** The slices of the panels, one after the other, are the selection up
    to the last slot of the last panel. *)
Lemma concat_slices {A} (l : list A) (c : Z) (j : nat) :
  (0 < c)%Z ->
  List.concat
    (List.map (fun idx => slice l (idx * c)
                                (Z.min (Z.of_nat (length l)) ((idx + 1) * c)))
              (upto (Z.of_nat j)))
  = List.firstn (j * Z.to_nat c) l.
Proof.
  intros Hc. unfold upto. rewrite Nat2Z.id.
  induction j as [|j IH]; [reflexivity|].
  rewrite List.seq_S, !List.map_app, List.concat_app, IH.
  cbn [List.map List.concat Nat.add]. rewrite List.app_nil_r.
  rewrite slice_chunk by exact Hc.
  rewrite take_take_drop. f_equal. lia.
Qed.


Section ComposerFacts.
Variable H : Host.
Variable settings : Settings.t.
Variable fileMap : gmap string string.

Lemma renderCell_read cache i placement file cell cache' :
  cacheOfMap fileMap cache ->
  renderCell H settings fileMap cache i placement file = Ok (cell, cache') ->
  cacheOfMap fileMap cache' /\ fileMap !! path file <> None.
Proof.
  intros Hcache. unfold renderCell.
  destruct (lookupParsed H fileMap cache file) as [parsed|m] eqn:Hlook;
    [|discriminate].
  intros Heq.
  assert (Hcache' : cache' = <[path file := ensureBounds H
                                 (ensureProcessed H settings parsed)]> cache)
    by congruence.
  clear Heq. subst cache'.
  assert (Hfile : fileMap !! path file <> None).
  { revert Hlook. unfold lookupParsed, readFileFromMap.
    destruct (cache !! path file) as [entry|] eqn:Hc.
    - intros _. exact (Hcache _ _ Hc).
    - destruct (fileMap !! path file); [discriminate|discriminate]. }
  split; [|exact Hfile].
  intros p entry. destruct (decide (path file = p)) as [<-|Hne].
  - intros _. exact Hfile.
  - unfold Cache. rewrite lookup_insert_ne by exact Hne. apply Hcache.
Qed.

Lemma renderCells_read items : forall cache i placements cells cache',
  cacheOfMap fileMap cache ->
  (i + length items <= length placements)%nat ->
  renderCells H settings fileMap cache i placements items = Ok (cells, cache') ->
  cacheOfMap fileMap cache' /\ forall file, In file items -> fileMap !! path file <> None.
Proof.
  induction items as [|file rest IH];
    intros cache i placements cells cache' Hcache Hlen.
  - intros [= _ <-]. split; [exact Hcache|intros ? []].
  - cbn [renderCells]. cbn [length] in Hlen.
    destruct (List.nth_error placements i) as [placement|] eqn:Hp.
    2:{ apply List.nth_error_None in Hp. lia. }
    destruct (renderCell H settings fileMap cache i placement file)
      as [[cell cache1]|m] eqn:Hcell; [|discriminate].
    destruct (renderCell_read _ _ _ _ _ _ Hcache Hcell) as [Hcache1 Hfile].
    destruct (renderCells H settings fileMap cache1 (S i) placements rest)
      as [[cells2 cache2]|m] eqn:Hrest; [|discriminate].
    intros [= _ <-].
    assert (Hlen' : (S i + length rest <= length placements)%nat) by lia.
    destruct (IH _ _ _ _ _ Hcache1 Hlen' Hrest) as [Hcache2 Hfiles].
    split; [exact Hcache2|].
    intros f [<-|Hf]; [exact Hfile|now apply Hfiles].
Qed.

Lemma renderPanels_read grid selected idxs : forall cache panels,
  cacheOfMap fileMap cache ->
  length (placements grid) = Z.to_nat (capacityPerPanel grid) ->
  Forall (fun idx => (0 <= idx)%Z) idxs ->
  (0 < capacityPerPanel grid)%Z ->
  renderPanels H settings fileMap grid selected cache idxs = Ok panels ->
  forall idx file,
    In idx idxs ->
    In file (slice selected (idx * capacityPerPanel grid)
                   (Z.min (Z.of_nat (length selected))
                          ((idx + 1) * capacityPerPanel grid))) ->
    fileMap !! path file <> None.
Proof.
  induction idxs as [|idx0 rest IH]; intros cache panels Hcache Hlen Hidx Hcap.
  - intros _ idx file [].
  - inversion Hidx as [|? ? Hpos Hrest]; subst.
    cbn [renderPanels].
    replace (idx0 * capacityPerPanel grid + capacityPerPanel grid)%Z
      with ((idx0 + 1) * capacityPerPanel grid)%Z by ring.
    set (items := slice selected _ _).
    destruct (renderCells H settings fileMap cache 0 (placements grid) items)
      as [[cells cache1]|m] eqn:Hcells; [|discriminate].
    assert (Hfits : (0 + length items <= length (placements grid))%nat).
    { pose proof (slice_length selected (idx0 * capacityPerPanel grid)
                    (Z.min (Z.of_nat (length selected))
                           ((idx0 + 1) * capacityPerPanel grid))) as Hs.
      fold items in Hs. rewrite Hlen. nia. }
    destruct (renderCells_read _ _ _ _ _ _ Hcache Hfits Hcells)
      as [Hcache1 Hfiles].
    destruct (renderPanels H settings fileMap grid selected cache1 rest)
      as [panels1|m] eqn:Hpanels; [|discriminate].
    intros _ idx file [<-|Hin] Hfile.
    + now apply Hfiles.
    + exact (IH _ _ Hcache1 Hlen Hrest Hcap Hpanels idx file Hin Hfile).
Qed.
End ComposerFacts.

Lemma feasible_grid settings grid :
  computeGridLayout settings = Some grid ->
  (0 < cols grid)%Z -> (0 < rows grid)%Z ->
  (0 < capacityPerPanel grid)%Z
  /\ length (placements grid) = Z.to_nat (capacityPerPanel grid).
Proof.
  intros Hgrid Hc Hr. split.
  - rewrite (computeGridLayout_capacity _ _ Hgrid). nia.
  - now apply (placements_length settings).
Qed.

Lemma selection_covered {A} (l : list A) (c : Z) :
  (0 < c)%Z ->
  List.concat
    (List.map (fun idx => slice l (idx * c)
                                (Z.min (Z.of_nat (length l)) ((idx + 1) * c)))
              (upto (computePanelCount (Z.of_nat (length l)) c)))
  = l.
Proof.
  intros Hc.
  pose proof (computePanelCount_bounds (Z.of_nat (length l)) c Hc) as [_ Hup].
  pose proof (computePanelCount_nonneg (Z.of_nat (length l)) c ltac:(lia)) as Hk.
  rewrite <- (Z2Nat.id _ Hk) at 1.
  rewrite concat_slices by exact Hc.
  apply List.firstn_all2. nia.
Qed.



(** X6.  On a grid with columns and rows, a selected file that is not in
    the file map makes [buildPanelSvgs] throw: no panel is returned, not
    even those before the file. *)
Theorem missing_file_aborts H settings fileMap selected grid file :
  computeGridLayout (layoutOf settings) = Some grid ->
  (0 < cols grid)%Z -> (0 < rows grid)%Z ->
  In file selected ->
  fileMap !! path file = None ->
  exists message, buildPanelSvgs H settings fileMap selected = Throw message.
Proof.
  intros Hgrid Hcols Hrows Hin Hmissing.
  destruct (feasible_grid _ _ Hgrid Hcols Hrows) as [Hcap Hlen].
  unfold buildPanelSvgs.
  destruct (buildPanelCells H settings fileMap selected) as [panels|m] eqn:Hbuild;
    [exfalso|now exists m].
  revert Hbuild. unfold buildPanelCells. fold (layoutOf settings). rewrite Hgrid.
  set (n := Z.of_nat (length selected)).
  set (c := capacityPerPanel grid) in *.
  pose proof (computePanelCount_bounds n c Hcap) as [_ Hup].
  assert (Hn : (0 < n)%Z).
  { subst n. destruct selected; [destruct Hin|cbn [length]; lia]. }
  destruct (Z.leb_spec (computePanelCount n c) 0) as [Hle|Hgt]; [nia|].
  intros Hpanels.
  pose proof (selection_covered selected c Hcap) as Hcover.
  fold n in Hcover. rewrite <- Hcover in Hin.
  apply List.in_concat in Hin as (items & Hitems & Hfile).
  apply List.in_map_iff in Hitems as (idx & <- & Hidx).
  refine (renderPanels_read H settings fileMap grid selected _ ∅ panels
            _ Hlen (upto_nonneg _) Hcap Hpanels idx file Hidx Hfile Hmissing).
  intros p entry Hp. unfold Cache in Hp. rewrite lookup_empty in Hp. discriminate.
Qed.

Lemma missing_file_aborts_witness :
  exists message,
    buildPanelSvgs (Demo.host outlineDoc outlineBoxes) (panel300 0)
                   (filesOf (items 2) outlineText) (items 3) = Throw message.
Proof.
  apply (missing_file_aborts
           (Demo.host outlineDoc outlineBoxes) (panel300 0)
           (filesOf (items 2) outlineText) (items 3) _ (item 2) eq_refl).
  - reflexivity.
  - reflexivity.
  - right. right. left. reflexivity.
  - vm_compute. reflexivity.
Defined.


(** ** Further properties of the colour functions *)




Lemma canonical_clean c : isCanonicalHex c = true -> Str.forallb cleanChar c = true.
Proof.
  destruct c as [|h [|r1 [|r2 [|g1 [|g2 [|b1 [|b2 [|]]]]]]]]; try discriminate.
  cbn [isCanonicalHex Str.forallb]. intros Hc.
  repeat (apply andb_prop in Hc as [Hc ?]).
  apply Ascii.eqb_eq in Hc as ->.
  change (cleanChar "#") with true.
  rewrite (hexLower_clean r1), (hexLower_clean r2), (hexLower_clean g1),
    (hexLower_clean g2), (hexLower_clean b1), (hexLower_clean b2) by assumption.
  reflexivity.
Qed.

Lemma canonical_fixed c : isCanonicalHex c = true -> normalizeColorToHex c = c.
Proof.
  intros Hc. rewrite normalize_unfold, (clean_cleaned c (canonical_clean c Hc)).
  unfold normalizeCleaned. rewrite (canonical_starts_with_hash c Hc).
  destruct c as [|h [|r1 [|r2 [|g1 [|g2 [|b1 [|b2 [|]]]]]]]]; try discriminate.
  reflexivity.
Qed.

(** X9.  On canonical colours [colorsMatch] is the tolerance test and
    nothing else: two of them match exactly when each of the three channels
    differs by at most 10. *)
Theorem colorsMatch_within_tolerance a b r1 g1 b1 r2 g2 b2 :
  isCanonicalHex a = true ->
  isCanonicalHex b = true ->
  parseHex6 a = Some (r1, g1, b1) ->
  parseHex6 b = Some (r2, g2, b2) ->
  colorsMatch a b = true
  <-> (Z.abs (r1 - r2) <= 10 /\ Z.abs (g1 - g2) <= 10 /\ Z.abs (b1 - b2) <= 10)%Z.
Proof.
  intros Ha Hb Hpa Hpb. unfold colorsMatch.
  rewrite (canonical_fixed a Ha), (canonical_fixed b Hb).
  rewrite (clean_lower a (canonical_clean a Ha)),
    (clean_lower b (canonical_clean b Hb)).
  destruct (String.eqb_spec a b) as [->|Hne].
  - rewrite Hpa in Hpb. injection Hpb as <- <- <-.
    split; [|reflexivity]. intros _. lia.
  - rewrite Hpa, Hpb. unfold tolerance.
    rewrite !Bool.andb_true_iff, !Z.leb_le. tauto.
Qed.

Lemma colorsMatch_within_tolerance_witness :
  colorsMatch "#000000" "#0a0000" = true
  /\ colorsMatch "#000000" "#0b0000" = false.
Proof.
  split.
  - apply (proj2 (colorsMatch_within_tolerance "#000000" "#0a0000"
                    0 0 0 10 0 0 eq_refl eq_refl eq_refl eq_refl)).
    vm_compute. repeat split; discriminate.
  - apply Bool.not_true_is_false. intros Hm.
    apply (proj1 (colorsMatch_within_tolerance "#000000" "#0b0000"
                    0 0 0 11 0 0 eq_refl eq_refl eq_refl eq_refl)) in Hm.
    destruct Hm as [Hm _]. vm_compute in Hm. apply Hm. reflexivity.
Defined.


(** ** Further properties of the text functions *)

Lemma avoids_append chars a b :
  avoids chars (a +:+ b) = avoids chars a && avoids chars b.
Proof. apply forallb_append. Qed.

Lemma avoids_tail c chars s : avoids (c :: chars) s = true -> avoids chars s = true.
Proof.
  unfold avoids. induction s as [|a s IH]; [reflexivity|].
  cbn [Str.forallb List.existsb]. rewrite Bool.negb_orb.
  intros Hs. apply andb_prop in Hs as [Ha Hs]. apply andb_prop in Ha as [_ Ha].
  now rewrite Ha, IH.
Qed.

(** Replacing a character by a text without it leaves none behind, and
    brings in no character that neither the text nor the replacement
    had. *)
Lemma replaceChar_avoids c by_ chars s :
  avoids (c :: chars) by_ = true ->
  avoids chars s = true ->
  avoids (c :: chars) (replaceChar c by_ s) = true.
Proof.
  intros Hby. induction s as [|a s IH]; [reflexivity|].
  intros Hs. unfold avoids in Hs. cbn [Str.forallb] in Hs.
  apply andb_prop in Hs as [Ha Hs]. fold (avoids chars s) in Hs.
  cbn [replaceChar]. destruct (Ascii.eqb a c) eqn:Eac.
  - rewrite avoids_append, Hby. now apply IH.
  - unfold avoids. cbn [Str.forallb List.existsb].
    rewrite Eac. cbn [orb]. rewrite Ha. cbn [andb]. now apply IH.
Qed.

Lemma replaceChar_absent c by_ chars s :
  In c chars -> avoids chars s = true -> replaceChar c by_ s = s.
Proof.
  intros Hc. induction s as [|a s IH]; [reflexivity|].
  unfold avoids. cbn [Str.forallb]. intros Hs.
  apply andb_prop in Hs as [Ha Hs]. cbn [replaceChar].
  destruct (Ascii.eqb_spec a c) as [->|_].
  - apply Bool.negb_true_iff in Ha.
    assert (Hex : List.existsb (Ascii.eqb c) chars = true).
    { apply List.existsb_exists. exists c. split; [exact Hc|apply Ascii.eqb_refl]. }
    congruence.
  - f_equal. now apply IH.
Qed.

(** X11.  The result of [escapeXml] holds no [<], [>], double quote or
    apostrophe, whatever the text is; and a text without these and without
    [&] is returned as it is. *)
Theorem escapeXml_no_markup str :
  avoids markupChars (escapeXml str) = true
  /\ (avoids ("&"%char :: markupChars) str = true -> escapeXml str = str).
Proof.
  unfold escapeXml. split.
  - unfold markupChars.
    repeat (apply replaceChar_avoids; [reflexivity|]).
    unfold avoids. induction (replaceChar "&" "&amp;" str) as [|a s IH];
      [reflexivity|exact IH].
  - intros Hs.
    rewrite !(replaceChar_absent _ _ ("&"%char :: markupChars) str);
      first [reflexivity | exact Hs | cbn; tauto].
Qed.

Lemma escapeXml_no_markup_witness :
  escapeXml "Angels 2024" = "Angels 2024"
  /\ escapeXml "<Tom & Ann>" = "&lt;Tom &amp; Ann&gt;"
  /\ avoids markupChars (escapeXml "<Tom & Ann>") = true.
Proof.
  split; [|split].
  - apply (proj2 (escapeXml_no_markup "Angels 2024")). reflexivity.
  - reflexivity.
  - apply (proj1 (escapeXml_no_markup "<Tom & Ann>")).
Defined.

Lemma strLen_positive text : Str.truthy text = true -> 0 < strLen text.
Proof.
  destruct text as [|c r]; [discriminate|]. intros _.
  unfold strLen. cbn [String.length].
  change 0 with (inject_Z 0). rewrite <- Zlt_Qlt. lia.
Qed.

Lemma Qle_bool_lt a b : Qle_bool a b = false -> b < a.
Proof.
  intros Hab. apply Qlt_bool_iff. unfold Qlt_bool. now rewrite Hab.
Qed.

Lemma measureTextSvg_measured H text fontFamily size :
  Str.truthy text = true -> 0 < size ->
  0 < tm_width (measureTextSvg H text fontFamily size)
  /\ 0 < tm_height (measureTextSvg H text fontFamily size).
Proof.
  intros Ht Hsize.
  assert (Hest : 0 < strLen text * size * 0.6 /\ 0 < size * 1.2).
  { pose proof (strLen_positive text Ht) as Hlen. split.
    - apply Qmult_lt_0_compat; [|reflexivity].
      now apply Qmult_lt_0_compat.
    - apply Qmult_lt_0_compat; [assumption|reflexivity]. }
  unfold measureTextSvg.
  destruct (textBBox H text fontFamily size) as [bbox|]; [|exact Hest].
  destruct (Qle_bool (Bounds.width bbox) 0) eqn:Ew; [exact Hest|].
  destruct (Qle_bool (Bounds.height bbox) 0) eqn:Eh; [exact Hest|].
  cbn [orb tm_width tm_height]. split; now apply Qle_bool_lt.
Qed.

(** X12.  [measureTextSvg] gives a positive width and a positive height
    for every non-empty text at a positive font size, whether the browser
    measures the text or the estimate is used. *)
Theorem measureTextSvg_positive H text fontFamily size :
  Str.truthy text = true -> 0 < size ->
  0 < tm_width (measureTextSvg H text fontFamily size)
  /\ 0 < tm_height (measureTextSvg H text fontFamily size).
Proof. apply measureTextSvg_measured. Qed.

Lemma measureTextSvg_positive_witness :
  0 < tm_width (measureTextSvg Demo.bare "Label" "Roboto" 100)
  /\ 0 < tm_height (measureTextSvg Demo.bare "Label" "Roboto" 100).
Proof.
  apply (measureTextSvg_positive Demo.bare "Label" "Roboto" 100); reflexivity.
Defined.

(** X13.  The font size [calculateTextFit] returns lies between 1 and
    2000 for every text and every box, the fallback of the degenerate
    cases included. *)
Theorem fontSize_bounded H text fontFamily box :
  1 <= fontSize (calculateTextFit H text fontFamily box)
  /\ fontSize (calculateTextFit H text fontFamily box) <= 2000.
Proof.
  unfold calculateTextFit.
  destruct (negb (Str.truthy text) || Qle_bool (Bounds.width box) 0
            || Qle_bool (Bounds.height box) 0); cbn [fontSize].
  - split; discriminate.
  - split; [apply Q.le_max_l|].
    apply Q.max_lub; [discriminate|apply Q.le_min_r].
Qed.

(** X14.  When the fitted size is above the minimum of 1, the text
    scaled from the reference size 100 to the fitted size is at most 99
    percent of the box wide and high: the label does not overflow. *)
Theorem fit_inside_box H text fontFamily box :
  Str.truthy text = true ->
  0 < Bounds.width box -> 0 < Bounds.height box ->
  let fit := calculateTextFit H text fontFamily box in
  let measured := measureTextSvg H text fontFamily 100 in
  1 < fontSize fit ->
  fontSize fit / 100 * tm_width measured <= Bounds.width box * 0.99
  /\ fontSize fit / 100 * tm_height measured <= Bounds.height box * 0.99.
Proof.
  intros Ht Hw Hh fit measured.
  destruct (measureTextSvg_measured H text fontFamily 100 Ht eq_refl)
    as [Hmw Hmh].
  fold measured in Hmw, Hmh.
  unfold fit, calculateTextFit.
  rewrite Ht, (Qle_bool_false _ _ Hw), (Qle_bool_false _ _ Hh).
  cbn [negb orb fontSize]. fold measured.
  rewrite (proj2 (Qlt_bool_iff 0 (tm_width measured)) Hmw).
  rewrite (proj2 (Qlt_bool_iff 0 (tm_height measured)) Hmh).
  set (hs := Bounds.height box * 0.99 / tm_height measured).
  set (ws := Bounds.width box * 0.99 / tm_width measured).
  intros Hbig.
  assert (Hsize : Qmax 1 (Qmin (100 * Qmin hs ws) 2000) <= 100 * Qmin hs ws).
  { destruct (Q.max_spec 1 (Qmin (100 * Qmin hs ws) 2000)) as [[_ E]|[_ E]].
    - rewrite E. apply Q.le_min_l.
    - rewrite E in Hbig. discriminate. }
  set (f := Qmax 1 (Qmin (100 * Qmin hs ws) 2000)) in *.
  assert (Hfw : f <= 100 * ws).
  { eapply Qle_trans; [exact Hsize|].
    apply Qmult_le_l; [reflexivity|apply Q.le_min_r]. }
  assert (Hfh : f <= 100 * hs).
  { eapply Qle_trans; [exact Hsize|].
    apply Qmult_le_l; [reflexivity|apply Q.le_min_l]. }
  assert (Hnw : ~ tm_width measured == 0).
  { intros E. rewrite E in Hmw. discriminate. }
  assert (Hnh : ~ tm_height measured == 0).
  { intros E. rewrite E in Hmh. discriminate. }
  split.
  - apply Qle_trans with (100 * ws / 100 * tm_width measured).
    + apply Qmult_le_compat_r; [|now apply Qlt_le_weak].
      apply Qmult_le_compat_r; [exact Hfw|discriminate].
    + unfold ws. apply Qle_lteq. right. field. exact Hnw.
  - apply Qle_trans with (100 * hs / 100 * tm_height measured).
    + apply Qmult_le_compat_r; [|now apply Qlt_le_weak].
      apply Qmult_le_compat_r; [exact Hfh|discriminate].
    + unfold hs. apply Qle_lteq. right. field. exact Hnh.
Qed.

Lemma fit_inside_box_witness :
  let fit := calculateTextFit Demo.bare "Label" "Roboto" (Bounds.mk 0 0 50 8) in
  let measured := measureTextSvg Demo.bare "Label" "Roboto" 100 in
  1 < fontSize fit
  /\ fontSize fit / 100 * tm_width measured <= 50 * 0.99
  /\ fontSize fit / 100 * tm_height measured <= 8 * 0.99.
Proof.
  split; [reflexivity|].
  apply (fit_inside_box Demo.bare "Label" "Roboto" (Bounds.mk 0 0 50 8));
    reflexivity.
Defined.
(** ** Further properties of the view box and the document parser *)

Ltac destruct_matches_in Hyp :=
  repeat match type of Hyp with
         | context [match ?x with _ => _ end] =>
             lazymatch x with
             | context [match _ with _ => _ end] => fail
             | _ => destruct x eqn:?
             end
         end.

Lemma viewBox_positive H svg vb :
  getSvgViewBox H svg = Some vb ->
  0 < Bounds.width vb /\ 0 < Bounds.height vb.
Proof.
  intros Hvb. unfold getSvgViewBox in Hvb.
  destruct_matches_in Hvb; try discriminate;
    injection Hvb as <-; cbn [Bounds.width Bounds.height];
    match goal with
    | Hb : (Qlt_bool 0 ?w && Qlt_bool 0 ?h)%bool = true |- 0 < ?w /\ 0 < ?h =>
        apply andb_prop in Hb as [Hw Hh]
    end;
    split; now apply Qlt_bool_iff.
Qed.

(** X15.  A view box [getSvgViewBox] returns has a positive width and a
    positive height, whether it comes from the [viewBox] attribute or from
    [width] and [height]. *)
Theorem getSvgViewBox_positive H svg vb :
  getSvgViewBox H svg = Some vb ->
  0 < Bounds.width vb /\ 0 < Bounds.height vb.
Proof. apply viewBox_positive. Qed.

Lemma getSvgViewBox_positive_witness :
  getSvgViewBox Demo.bare plainDoc = Some (Bounds.mk 0 0 100 100)
  /\ 0 < Bounds.width (Bounds.mk 0 0 100 100)
  /\ 0 < Bounds.height (Bounds.mk 0 0 100 100).
Proof.
  split; [reflexivity|].
  apply (getSvgViewBox_positive Demo.bare plainDoc (Bounds.mk 0 0 100 100)).
  reflexivity.
Defined.

(** X16.  Without a usable view box the two geometric options do
    nothing: [processLayersForPanel] applies the layer transform and
    nothing else, whatever [removeOrnamentHole] and [addRoundBacker]
    are. *)
Theorem no_viewBox_no_geometry H svgText svg layers options :
  getSvgViewBox H svg = None ->
  processImported H svgText svg layers options
  = applyLayers layers (parseSvgStyleBlock svgText) (childNodes svg).
Proof.
  intros Hvb.
  unfold processImported, beforeCover, coverStage, backerStage, savedCutLine,
    holeStage.
  rewrite Hvb.
  destruct (removeOrnamentHole options), (addRoundBacker options); reflexivity.
Qed.

Lemma no_viewBox_no_geometry_witness :
  processImported Demo.bare "<svg><path d='M0 0 L10 10 Z'/></svg>" unsizedDoc
                  None holeAndBacker
  = [barePath].
Proof.
  rewrite (no_viewBox_no_geometry Demo.bare _ unsizedDoc None holeAndBacker);
    reflexivity.
Defined.

(** X17.  [parseSvgString] and [processLayersForPanel] reject the same
    texts: where the parser throws, the transform returns the text it was
    given; where the parser succeeds, both work on the same [<svg>]
    element. *)
Theorem parse_and_process_agree H svgText layers options :
  match parseSvgString H svgText with
  | Throw _ => processLayersForPanel H svgText layers options = svgText
  | Ok parsed =>
      exists i svg,
        querySelector ["svg"] [parseFromString H svgText] = Some (i, svg)
        /\ innerContent parsed = innerHTML H (childNodes svg)
        /\ processLayersForPanel H svgText layers options
           = innerHTML H (processImported H svgText svg layers options)
  end.
Proof.
  unfold parseSvgString, processLayersForPanel.
  destruct (querySelector ["parsererror"] [parseFromString H svgText]);
    [reflexivity|].
  destruct (querySelector ["svg"] [parseFromString H svgText]) as [[i svg]|];
    [|reflexivity].
  exists i, svg. repeat split.
Qed.

(** ** Further properties of the layer transform *)

Lemma visit_strips layers styleMap el a' marked :
  visitElement layers styleMap el = (a', marked) ->
  getAttr "class" a' = None /\ getAttr "style" a' = None.
Proof.
  unfold visitElement, setIf. fold (stripped (attributes el)).
  repeat match goal with
         | |- context [match ?x with _ => _ end] => destruct x
         end;
    intros [= <- <-]; split; attr_lookup.
Qed.

Lemma everywhere_True forest : everywhere (fun _ _ => True) forest.
Proof. apply List.Forall_forall. intros; exact I. Qed.

(** X18.  After the layer transform no shape node carries a [class] or a
    [style] attribute, in passthrough mode and under any rule list. *)
Theorem output_is_inlined layers styleMap imported :
  everywhere (fun t a => shapeTag t = true ->
                         getAttr "class" a = None /\ getAttr "style" a = None)
             (applyLayers layers styleMap imported).
Proof.
  assert (Hkept : everywhere
                    (fun t a => shapeTag t = true ->
                                getAttr "class" a = None /\ getAttr "style" a = None)
                    (layerForest layers styleMap (removeStyleElement imported))).
  { apply (layerForest_everywhere (fun _ _ => True)).
    - intros t a _ Ht Ht'. congruence.
    - intros t a ks a' _ _ Hv _. exact (visit_strips _ _ _ _ _ Hv).
    - apply everywhere_True. }
  unfold applyLayers. destruct layers; [|exact Hkept].
  now apply removeEmptyGroups_everywhere.
Qed.

(** X19.  Under a rule list every group that is left in the result has a
    shape node below it: no empty group remains, at any depth. *)
Theorem no_empty_group_left layers styleMap imported :
  Forall (fun m => tagName m = "g" -> hasShape (childNodes m) = true)
         (elemsOf (applyLayers (Some layers) styleMap imported)).
Proof.
  unfold applyLayers.
  generalize (layerForest (Some layers) styleMap (removeStyleElement imported)).
  assert (Hnode : forall n,
             Forall (fun m => tagName m = "g" -> hasShape (childNodes m) = true)
                    (elemsOf (pruneGroup n))).
  { induction n as [s|t a ks IH] using node_induction; [constructor|].
    assert (Hks : Forall (fun m => tagName m = "g" -> hasShape (childNodes m) = true)
                         (elemsOf (List.flat_map pruneGroup ks))).
    { induction IH as [|k ks Hk _ IHks]; [constructor|].
      cbn [List.flat_map]. rewrite elemsOf_app. apply List.Forall_app. auto. }
    cbn [pruneGroup].
    destruct (String.eqb t "g" && negb (hasShape ks)) eqn:Eg; [constructor|].
    unfold elemsOf. cbn [List.flat_map elems]. rewrite List.app_nil_r.
    constructor; [|exact Hks].
    cbn [tagName childNodes]. intros ->.
    fold (removeEmptyGroups ks). rewrite hasShape_prune.
    cbn [String.eqb Ascii.eqb Bool.eqb andb] in Eg.
    now destruct (hasShape ks). }
  intros forest. induction forest as [|n l IH]; [constructor|].
  unfold removeEmptyGroups in *. cbn [List.flat_map].
  rewrite elemsOf_app. apply List.Forall_app. auto.
Qed.

(** X20.  A shape node matched by a visible rule in stroke mode comes out
    as an outline: not removed, [fill] is [none], [stroke] is the target
    colour, and [stroke-width] is the resolved width or, without one, 1
    for art that was filled and 0.5 for art that was stroked. *)
Theorem stroke_mode_outline layers styleMap el p layerConfig primary :
  let colors := getElementColors el styleMap in
  primaryColorOf colors = Some p ->
  matchLayer colors p layers = Some (layerConfig, primary) ->
  visibility layerConfig <> hidden ->
  renderMode layerConfig = stroke_mode ->
  let out := visitElement (Some layers) styleMap el in
  snd out = false
  /\ getAttr "fill" (fst out) = Some "none"
  /\ getAttr "stroke" (fst out) = Some (targetColorOf layerConfig primary)
  /\ getAttr "stroke-width" (fst out)
     = Some (Str.orElse (strokeWidth colors)
                        (match visibleColor (fill colors) with
                         | Some _ => "1"
                         | None => "0.5"
                         end)).
Proof.
  intros colors Hp Hmatch Hvis Hmode out. subst out.
  unfold visitElement. fold colors. unfold primaryColorOf in Hp.
  fold (stripped (attributes el)).
  destruct (visibleColor (fill colors)) as [f|] eqn:Ef.
  - injection Hp as ->. rewrite Hmatch.
    destruct (visibility layerConfig); [congruence| |];
      rewrite Hmode; cbn [fst snd]; repeat split; attr_lookup.
  - rewrite Hp, Hmatch.
    destruct (visibility layerConfig); [congruence| |];
      rewrite Hmode; cbn [fst snd]; repeat split; attr_lookup.
Qed.

Lemma stroke_mode_outline_witness :
  visitElement (Some [redStroke]) ∅ redRect
  = ([("fill", "none"); ("stroke", "#ff0000"); ("stroke-width", "1")], false)
  /\ getAttr "stroke-width" (fst (visitElement (Some [redStroke]) ∅ redRect))
     = Some "1".
Proof.
  split; [reflexivity|].
  apply (stroke_mode_outline [redStroke] ∅ redRect "#ff0000" redStroke "#ff0000");
    first [reflexivity | discriminate].
Defined.

(** X21.  A shape node matched by a visible rule in fill mode comes out
    solid when it has a visible fill or can take one (a circle, an ellipse,
    a rectangle, a polygon or a closed path): not removed, [fill] is the
    target colour, [stroke] is [none], and [stroke-width] is as it was. *)
Theorem fill_mode_solid layers styleMap el p layerConfig primary :
  let colors := getElementColors el styleMap in
  primaryColorOf colors = Some p ->
  matchLayer colors p layers = Some (layerConfig, primary) ->
  visibility layerConfig <> hidden ->
  renderMode layerConfig = fill_mode ->
  visibleColor (fill colors) <> None \/ canFill el = true ->
  let out := visitElement (Some layers) styleMap el in
  snd out = false
  /\ getAttr "fill" (fst out) = Some (targetColorOf layerConfig primary)
  /\ getAttr "stroke" (fst out) = Some "none"
  /\ getAttr "stroke-width" (fst out) = getAttribute "stroke-width" el.
Proof.
  intros colors Hp Hmatch Hvis Hmode Hfillable out. subst out.
  unfold visitElement, getAttribute. fold colors. unfold primaryColorOf in Hp.
  fold (stripped (attributes el)).
  destruct (visibleColor (fill colors)) as [f|] eqn:Ef.
  - injection Hp as ->. rewrite Hmatch.
    destruct (visibility layerConfig); [congruence| |];
      rewrite Hmode; cbn [fst snd]; repeat split; attr_lookup;
      now rewrite stripped_other by discriminate.
  - destruct Hfillable as [Hf|Hcan]; [congruence|].
    rewrite Hp, Hmatch, Hcan.
    destruct (visibility layerConfig); [congruence| |];
      rewrite Hmode; cbn [fst snd]; repeat split; attr_lookup;
      now rewrite stripped_other by discriminate.
Qed.

Lemma fill_mode_solid_witness :
  visitElement (Some [redFill]) ∅ redRect
  = ([("fill", "#000000"); ("stroke", "none")], false)
  /\ getAttr "fill" (fst (visitElement (Some [redFill]) ∅ redRect))
     = Some "#000000".
Proof.
  split; [reflexivity|].
  apply (fill_mode_solid [redFill] ∅ redRect "#ff0000" redFill "#ff0000");
    first [reflexivity | discriminate | left; discriminate].
Defined.



(** X23.  Paint precedence of [getElementColors] for the fill: a fill
    declared in the inline style wins over class rules and the attribute;
    without an inline style, the fill of the rule of the last class wins
    over the attribute. *)
Theorem fill_precedence el styleMap :
  (forall declarations v,
      nonEmpty (getAttribute "style" el) = Some declarations ->
      matchFill declarations = Some v -> Str.truthy v = true ->
      fill (getElementColors el styleMap) = Some v)
  /\ (forall classes cls rule f,
        nonEmpty (getAttribute "style" el) = None ->
        classesOf el = classes ++ [cls] ->
        styleMap !! cls = Some rule ->
        nonEmpty (rule_fill rule) = Some f ->
        fill (getElementColors el styleMap) = Some f).
Proof.
  split.
  - intros declarations v Hstyle Hfill Hv.
    unfold getElementColors. rewrite Hstyle. cbn [fill].
    rewrite Hfill. cbn [assignMatch]. unfold fallback.
    now rewrite (nonEmpty_truthy v Hv).
  - intros classes cls rule f Hstyle Hclasses Hrule Hf.
    unfold getElementColors. rewrite Hstyle, Hclasses.
    rewrite List.fold_left_app. cbn [List.fold_left]. rewrite Hrule.
    cbn [fill]. unfold assignIf. rewrite Hf. unfold fallback.
    destruct (nonEmpty_Some _ _ Hf) as [_ Ht].
    now rewrite (nonEmpty_truthy f Ht).
Qed.

Lemma fill_precedence_witness :
  fill (getElementColors classedRect {[ "st0" := greenRule ]}) = Some "#00c100"
  /\ fill (getElementColors classedOnly {[ "st0" := greenRule ]}) = Some "#0000ff".
Proof.
  split.
  - apply (proj1 (fill_precedence classedRect {[ "st0" := greenRule ]})
             "fill: #00c100" "#00c100"); reflexivity.
  - apply (proj2 (fill_precedence classedOnly {[ "st0" := greenRule ]})
             [] "st0" greenRule "#0000ff"); reflexivity.
Defined.





(** ** Further properties of the cut line search *)

Lemma widestOf_skip H styleMap seen best i el :
  (forall bbox, ~ eligible H styleMap el bbox) ->
  widestOf H styleMap seen best ->
  widestOf H styleMap (seen ++ [(i, el)]) best.
Proof.
  intros Hnot. unfold widestOf. destruct best as [[i0 b]|].
  - intros [(el0 & Hin & Hel) Hmax]. split.
    + exists el0. split; [apply List.in_or_app; now left|exact Hel].
    + intros j el' bbox Hin' Hel'.
      apply List.in_app_or in Hin' as [Hin'|[[= <- <-]|[]]].
      * eapply Hmax; eauto.
      * destruct (Hnot _ Hel').
  - intros Hnone j el' bbox Hin' Hel'.
    apply List.in_app_or in Hin' as [Hin'|[[= <- <-]|[]]].
    + eapply Hnone; eauto.
    + destruct (Hnot _ Hel').
Qed.

Lemma widestOf_step H styleMap seen best i el :
  widestOf H styleMap seen best ->
  widestOf H styleMap (seen ++ [(i, el)])
    (if isCutColored styleMap el then
       match safeGetBBox H el with
       | Some bbox =>
           if Qle_bool (Bounds.width bbox) 0 then best
           else
             match best with
             | Some (_, b) =>
                 if Qlt_bool (Bounds.width b) (Bounds.width bbox)
                 then Some (i, bbox) else best
             | None => Some (i, bbox)
             end
       | None => best
       end
     else best).
Proof.
  intros Hbest.
  destruct (isCutColored styleMap el) eqn:Ecut.
  2:{ apply widestOf_skip; [|exact Hbest].
      intros bbox (Hc & _). congruence. }
  destruct (safeGetBBox H el) as [bb|] eqn:Ebox.
  2:{ apply widestOf_skip; [|exact Hbest].
      intros bbox (_ & Hb & _). congruence. }
  destruct (Qle_bool (Bounds.width bb) 0) eqn:Ew.
  { apply widestOf_skip; [|exact Hbest].
    intros bbox (_ & Hb & Hw). rewrite Ebox in Hb. injection Hb as <-.
    apply Qle_bool_iff in Ew. exact (Qlt_not_le _ _ Hw Ew). }
  assert (Hel : eligible H styleMap el bb).
  { repeat split; [exact Ecut|exact Ebox|now apply Qle_bool_lt]. }
  assert (Honly : forall bbox, eligible H styleMap el bbox -> bbox = bb).
  { intros bbox (_ & Hb & _). congruence. }
  destruct best as [[i0 b]|]; unfold widestOf in *.
  - destruct Hbest as [(el0 & Hin & Hel0) Hmax].
    destruct (Qlt_bool (Bounds.width b) (Bounds.width bb)) eqn:Elt.
    + apply Qlt_bool_iff in Elt. split.
      * exists el. split; [apply List.in_or_app; right; now left|exact Hel].
      * intros j el' bbox Hin' Hel'.
        apply List.in_app_or in Hin' as [Hin'|[[= <- <-]|[]]].
        -- apply Qle_trans with (Bounds.width b);
             [eapply Hmax; eauto|now apply Qlt_le_weak].
        -- rewrite (Honly _ Hel'). apply Qle_refl.
    + split.
      * exists el0. split; [apply List.in_or_app; now left|exact Hel0].
      * intros j el' bbox Hin' Hel'.
        apply List.in_app_or in Hin' as [Hin'|[[= <- <-]|[]]].
        -- eapply Hmax; eauto.
        -- rewrite (Honly _ Hel').
           unfold Qlt_bool in Elt. apply Bool.negb_false_iff in Elt.
           now apply Qle_bool_iff.
  - split.
    + exists el. split; [apply List.in_or_app; right; now left|exact Hel].
    + intros j el' bbox Hin' Hel'.
      apply List.in_app_or in Hin' as [Hin'|[[= <- <-]|[]]].
      * destruct (Hbest _ _ _ Hin' Hel').
      * rewrite (Honly _ Hel'). apply Qle_refl.
Qed.

Lemma findCutLine_widest H styleMap imported :
  widestOf H styleMap (querySelectorAll ["circle"; "ellipse"; "path"] imported)
           (findCutLine H styleMap imported).
Proof.
  unfold findCutLine.
  set (candidates := querySelectorAll ["circle"; "ellipse"; "path"] imported).
  match goal with
  | |- context [List.fold_left ?f _ _] => set (step := f)
  end.
  assert (Hfold : forall l seen best,
             widestOf H styleMap seen best ->
             widestOf H styleMap (seen ++ l) (List.fold_left step l best)).
  { induction l as [|[i el] l IH]; intros seen best Hbest.
    - now rewrite List.app_nil_r.
    - cbn [List.fold_left].
      replace (seen ++ (i, el) :: l) with ((seen ++ [(i, el)]) ++ l)
        by (now rewrite <- List.app_assoc).
      apply IH. unfold step. now apply widestOf_step. }
  apply (Hfold candidates [] None). intros j el bbox [].
Qed.

(** X25.  The cut line [detectCutLineBbox] reports is the box of a
    cut-coloured circle, ellipse or path with a measurable box of positive
    width, and no such element has a wider box; it reports none exactly
    when there is no such element. *)
Theorem cut_line_is_widest H imported styleMap :
  let candidates := querySelectorAll ["circle"; "ellipse"; "path"] imported in
  match detectCutLineBbox H imported styleMap with
  | Some cut =>
      (exists i el, In (i, el) candidates /\ eligible H styleMap el cut)
      /\ forall i el bbox,
           In (i, el) candidates -> eligible H styleMap el bbox ->
           Bounds.width bbox <= Bounds.width cut
  | None =>
      forall i el bbox, In (i, el) candidates -> ~ eligible H styleMap el bbox
  end.
Proof.
  intros candidates. unfold detectCutLineBbox.
  pose proof (findCutLine_widest H styleMap imported) as Hw.
  fold candidates in Hw. unfold widestOf in Hw.
  destruct (findCutLine H styleMap imported) as [[i cut]|]; cbn [option_map snd].
  - destruct Hw as [(el & Hin & Hel) Hmax]. split; [|exact Hmax].
    now exists i, el.
  - exact Hw.
Qed.



(** ** Properties of the path functions *)

Lemma append_nil_r s : s +:+ EmptyString = s.
Proof. induction s as [|c s IH]; [reflexivity|]. cbv [String.append]. fold String.append. now rewrite IH. Qed.

Lemma append_cons c a b : String c a +:+ b = String c (a +:+ b).
Proof. reflexivity. Qed.

Lemma append_assoc a b c : (a +:+ b) +:+ c = a +:+ (b +:+ c).
Proof.
  induction a as [|x a IH]; [reflexivity|].
  now rewrite !append_cons, IH.
Qed.

Lemma append_length a b :
  String.length (a +:+ b) = (String.length a + String.length b)%nat.
Proof.
  induction a as [|x a IH]; [reflexivity|].
  rewrite append_cons. cbn [String.length]. now rewrite IH.
Qed.

Lemma append_inj_r s a : forall b, a +:+ s = b +:+ s -> a = b.
Proof.
  induction a as [|x a IH]; intros [|y b] E.
  - reflexivity.
  - change (EmptyString +:+ s) with s in E.
    apply (f_equal String.length) in E.
    rewrite append_cons in E. cbn [String.length] in E.
    rewrite append_length in E. lia.
  - change (EmptyString +:+ s) with s in E.
    apply (f_equal String.length) in E.
    rewrite append_cons in E. cbn [String.length] in E.
    rewrite append_length in E. lia.
  - rewrite !append_cons in E. injection E as -> E. f_equal. now apply IH.
Qed.

Lemma includes_append c a b : includes c (a +:+ b) = includes c a || includes c b.
Proof.
  induction a as [|x a IH]; [reflexivity|].
  rewrite append_cons. cbn [includes]. now rewrite IH, Bool.orb_assoc.
Qed.

Lemma includes_dropLast c s : includes c s = false -> includes c (dropLast s) = false.
Proof.
  induction s as [|x s IH]; [reflexivity|].
  cbn [includes]. intros Hs. apply Bool.orb_false_iff in Hs as [Hx Hs].
  destruct s as [|y s]; [reflexivity|].
  cbn [dropLast includes]. rewrite Hx. cbn [orb]. now apply IH.
Qed.

Lemma noSlash_includes c s :
  isSlash c = true -> noSlash s = true -> includes c s = false.
Proof.
  intros Hc. induction s as [|x s IH]; [reflexivity|].
  unfold noSlash. cbn [Str.forallb includes]. intros Hs.
  apply andb_prop in Hs as [Hx Hs]. rewrite (IH Hs), Bool.orb_false_r.
  destruct (Ascii.eqb_spec x c) as [->|]; [|reflexivity].
  rewrite Hc in Hx. discriminate.
Qed.

Lemma isSlash_separator path : isSlash (getPathSeparator path) = true.
Proof. unfold getPathSeparator. now destruct (includes backslash path). Qed.

Lemma lastIndexOf_absent c s : includes c s = false -> lastIndexOf c s = None.
Proof.
  induction s as [|x s IH]; [reflexivity|].
  cbn [includes lastIndexOf]. intros Hs.
  apply Bool.orb_false_iff in Hs as [Hx Hs]. now rewrite (IH Hs), Hx.
Qed.

Lemma lastIndexOf_last c a b :
  includes c b = false ->
  lastIndexOf c (a +:+ String c b) = Some (String.length a).
Proof.
  intros Hb. induction a as [|x a IH].
  - cbn [String.append lastIndexOf String.length].
    change (EmptyString +:+ String c b) with (String c b). cbn [lastIndexOf].
    now rewrite (lastIndexOf_absent c b Hb), Ascii.eqb_refl.
  - rewrite append_cons. cbn [lastIndexOf String.length]. now rewrite IH.
Qed.

Lemma sliceTo_append a b : sliceTo (String.length a) (a +:+ b) = a.
Proof.
  induction a as [|x a IH].
  - now destruct b.
  - rewrite append_cons. cbn [String.length sliceTo]. now rewrite IH.
Qed.

Lemma splitAt_separator sep a c b : forall field,
  sep c = true ->
  splitAt sep (a +:+ String c b) field
  = splitAt sep a field ++ splitAt sep b EmptyString.
Proof.
  induction a as [|x a IH]; intros field Hc.
  - change (EmptyString +:+ String c b) with (String c b).
    cbn [splitAt]. now rewrite Hc.
  - rewrite append_cons. cbn [splitAt].
    destruct (sep x); [cbn [app]; f_equal|]; now apply IH.
Qed.

Lemma splitAt_plain sep s : forall field,
  Str.forallb (fun c => negb (sep c)) s = true ->
  splitAt sep s field = [field +:+ s].
Proof.
  induction s as [|x s IH]; intros field Hs.
  - now rewrite append_nil_r.
  - cbn [Str.forallb] in Hs. apply andb_prop in Hs as [Hx Hs].
    cbn [splitAt]. apply Bool.negb_true_iff in Hx. rewrite Hx.
    rewrite (IH _ Hs), append_assoc. reflexivity.
Qed.

Lemma joinPath_unfold parent child :
  joinPath parent child
  = normalizedParent parent +:+ String (getPathSeparator parent) child.
Proof. reflexivity. Qed.

Lemma separator_of_join parent child :
  noSlash child = true ->
  getPathSeparator (joinPath parent child) = getPathSeparator parent.
Proof.
  intros Hchild. rewrite joinPath_unfold.
  unfold getPathSeparator at 1. rewrite includes_append.
  unfold normalizedParent. unfold getPathSeparator.
  destruct (includes backslash parent) eqn:Ep.
  - cbn [includes]. rewrite Ascii.eqb_refl. cbn [orb].
    now rewrite Bool.orb_true_r.
  - assert (Hnp : includes backslash
                    (if endsWithChar slash parent then dropLast parent
                     else parent) = false).
    { destruct (endsWithChar slash parent); [|exact Ep].
      now apply includes_dropLast. }
    rewrite Hnp. cbn [includes orb].
    rewrite (noSlash_includes backslash child eq_refl Hchild).
    reflexivity.
Qed.

(** X27.  Joining and splitting a path are inverse to each other: for a
    child name that is not empty and holds no separator, [getBasename] of
    the joined path is the child, and [getParentDir] of it is the parent
    without its trailing separator ([null] when that is empty). *)
Theorem join_then_split parent child :
  Str.truthy child = true ->
  noSlash child = true ->
  getBasename (joinPath parent child) = child
  /\ getParentDir (joinPath parent child)
     = nonEmpty (Some (normalizedParent parent)).
Proof.
  intros Htruthy Hchild. split.
  - unfold getBasename. rewrite joinPath_unfold.
    rewrite splitAt_separator by apply isSlash_separator.
    rewrite (splitAt_plain isSlash child EmptyString Hchild).
    change (EmptyString +:+ child) with child.
    rewrite List.filter_app. cbn [List.filter]. rewrite Htruthy.
    rewrite List.last_last. destruct child; [discriminate|reflexivity].
  - unfold getParentDir. rewrite (separator_of_join parent child Hchild).
    rewrite joinPath_unfold.
    rewrite lastIndexOf_last
      by (apply noSlash_includes; [apply isSlash_separator|exact Hchild]).
    destruct (normalizedParent parent) as [|c r] eqn:Enp; [reflexivity|].
    rewrite <- Enp. cbn [nonEmpty].
    replace (String.length (normalizedParent parent))
      with (S (String.length r)) by (now rewrite Enp).
    rewrite <- (sliceTo_append (normalizedParent parent)
                  (String (getPathSeparator parent) child)) at 2.
    rewrite Enp. reflexivity.
Qed.

Lemma join_then_split_witness :
  joinPath "set/angels/" "star.svg" = "set/angels/star.svg"
  /\ getBasename (joinPath "set/angels/" "star.svg") = "star.svg"
  /\ getParentDir (joinPath "set/angels/" "star.svg") = Some "set/angels".
Proof.
  split; [reflexivity|].
  apply (join_then_split "set/angels/" "star.svg"); reflexivity.
Defined.

(** X28.  [stripExtension] cuts a name at its last dot: it returns the
    stem of [stem.ext] when [ext] holds no dot and the stem is not empty,
    and returns the name as it is when the only dot is the first character
    or when there is no dot. *)
Theorem stripExtension_last_dot stem ext :
  includes "." ext = false ->
  stripExtension (stem +:+ String "." ext)
  = (if Str.truthy stem then stem else String "." ext)
  /\ stripExtension ext = ext.
Proof.
  intros Hext. unfold stripExtension. split.
  - rewrite (lastIndexOf_last "." stem ext Hext).
    destruct stem as [|c r]; [reflexivity|].
    cbn [String.length Str.truthy].
    exact (sliceTo_append (String c r) (String "." ext)).
  - now rewrite (lastIndexOf_absent "." ext Hext).
Qed.

Lemma stripExtension_last_dot_witness :
  stripExtension "star.v2.svg" = "star.v2"
  /\ stripExtension ".gitignore" = ".gitignore"
  /\ stripExtension "README" = "README".
Proof.
  split; [|split].
  - apply (proj1 (stripExtension_last_dot "star.v2" "svg" eq_refl)).
  - apply (proj1 (stripExtension_last_dot EmptyString "gitignore" eq_refl)).
  - apply (proj2 (stripExtension_last_dot EmptyString "README" eq_refl)).
Defined.

(** ** Properties of the export file names *)

Lemma parseDigits_decimalAux fuel : forall n acc,
  (0 < fuel)%nat -> (n < 10 ^ N.of_nat fuel)%N ->
  Str.parseDigits (decimalAux fuel n acc) 0 = Str.parseDigits acc n.
Proof.
  induction fuel as [|f IH]; intros n acc Hfuel Hn; [lia|].
  cbn [decimalAux].
  assert (Hdigit : (Str.code (Ascii.ascii_of_N (48 + n mod 10)) - 48
                    = n mod 10)%N).
  { pose proof (N.mod_lt n 10 ltac:(discriminate)) as Hm.
    set (m := (n mod 10)%N) in *.
    unfold Str.code. rewrite Ascii.N_ascii_embedding; lia. }
  pose proof (N.div_mod n 10 ltac:(discriminate)) as Hdm.
  set (m := (n mod 10)%N) in *. set (q := (n / 10)%N) in *.
  destruct (N.eqb_spec q 0) as [Hz|Hnz].
  - cbn [Str.parseDigits]. rewrite Hdigit. f_equal. lia.
  - assert (Hf : (0 < f)%nat).
    { destruct f; [|lia]. exfalso. apply Hnz.
      apply N.div_small. exact Hn. }
    rewrite IH.
    + cbn [Str.parseDigits]. rewrite Hdigit. f_equal. lia.
    + exact Hf.
    + apply N.Div0.div_lt_upper_bound.
      replace (N.of_nat (S f)) with (N.succ (N.of_nat f)) in Hn by lia.
      now rewrite N.pow_succ_r' in Hn.
Qed.

(** Printing a number in decimal and reading it back gives the number. *)
Lemma parseInt10_decimal n : Str.parseInt10 (decimal n) = n.
Proof.
  unfold Str.parseInt10, decimal.
  rewrite parseDigits_decimalAux; [reflexivity|lia|].
  rewrite Nat2N.inj_succ, N2Nat.id.
  destruct (N.eq_dec n 0%N) as [->|Hn]; [reflexivity|].
  apply N.lt_le_trans with (2 ^ N.succ (N.log2 n))%N.
  - apply N.log2_spec. lia.
  - apply N.pow_le_mono_l. lia.
Qed.

Lemma parseDigits_fill k s :
  Str.parseDigits (fillString k "0" +:+ s) 0 = Str.parseDigits s 0.
Proof.
  induction k as [|k IH]; [reflexivity|].
  cbn [fillString]. rewrite append_cons. cbn [Str.parseDigits]. exact IH.
Qed.

Lemma parseInt10_padIndex i total : Str.parseInt10 (padIndex i total) = i.
Proof.
  unfold padIndex, padStart, Str.parseInt10.
  rewrite parseDigits_fill. apply parseInt10_decimal.
Qed.

Lemma NoDup_map_in {A B} (f : A -> B) l :
  (forall x y, In x l -> In y l -> f x = f y -> x = y) ->
  List.NoDup l -> List.NoDup (List.map f l).
Proof.
  intros Hinj Hl. induction Hl as [|a l Ha Hl IH]; [constructor|].
  cbn [List.map]. constructor.
  - intros Hin. apply List.in_map_iff in Hin as (b & Hb & Hbl).
    assert (b = a) by (apply Hinj; [now right|now left|exact Hb]).
    subst b. contradiction.
  - apply IH. intros x y Hx Hy. apply Hinj; now right.
Qed.

(** X29.  [generateExportFileNames] gives one name for every panel, the
    names are pairwise different, each is the base name followed by a
    suffix and [.svg], and a single panel gets the base name without a
    number. *)
Theorem export_names_distinct baseName panelCount :
  length (generateExportFileNames baseName panelCount) = panelCount
  /\ List.NoDup (generateExportFileNames baseName panelCount)
  /\ Forall (fun fileName =>
               exists suffix, fileName = baseName +:+ suffix +:+ ".svg")
            (generateExportFileNames baseName panelCount)
  /\ generateExportFileNames baseName 1 = [baseName +:+ ".svg"].
Proof.
  unfold generateExportFileNames. split; [|split; [|split]].
  - now rewrite List.length_map, List.length_seq.
  - apply NoDup_map_in; [|apply List.seq_NoDup].
    intros x y Hx Hy. apply List.in_seq in Hx, Hy. cbv beta zeta.
    destruct (Nat.ltb_spec 1 panelCount) as [Hmany|Hone]; [|lia].
    intros E. apply String.app_inj in E. apply append_inj_r in E.
    apply String.app_inj in E. apply (f_equal Str.parseInt10) in E.
    rewrite !parseInt10_padIndex in E. lia.
  - apply List.Forall_forall. intros fileName Hin.
    apply List.in_map_iff in Hin as (i & <- & _). eexists. reflexivity.
  - reflexivity.
Qed.

(** ** Properties of the folder scan *)

Lemma insertCmp_In {A} (cmp : A -> A -> Z) x y l :
  In y (insertCmp cmp x l) <-> y = x \/ In y l.
Proof.
  induction l as [|a l IH]; cbn [insertCmp In]; [intuition congruence|].
  destruct (cmp a x <=? 0)%Z; cbn [In]; [rewrite IH|]; intuition congruence.
Qed.

Lemma sortCmp_In {A} (cmp : A -> A -> Z) y l : In y (sortCmp cmp l) <-> In y l.
Proof.
  unfold sortCmp.
  assert (Hgen : forall acc, In y (List.fold_left
                                     (fun acc x => insertCmp cmp x acc) l acc)
                             <-> In y acc \/ In y l).
  { induction l as [|a l IH]; intros acc; cbn [List.fold_left In]; [tauto|].
    rewrite IH, insertCmp_In. intuition congruence. }
  rewrite Hgen. cbn [In]. tauto.
Qed.

Lemma insertCmp_length {A} (cmp : A -> A -> Z) x l :
  length (insertCmp cmp x l) = S (length l).
Proof.
  induction l as [|a l IH]; [reflexivity|]. cbn [insertCmp].
  destruct (cmp a x <=? 0)%Z; cbn [length]; [now rewrite IH|reflexivity].
Qed.

Lemma sortCmp_length {A} (cmp : A -> A -> Z) l :
  length (sortCmp cmp l) = length l.
Proof.
  unfold sortCmp.
  assert (Hgen : forall acc, length (List.fold_left
                                       (fun acc x => insertCmp cmp x acc) l acc)
                             = (length acc + length l)%nat).
  { induction l as [|a l IH]; intros acc; cbn [List.fold_left length]; [lia|].
    rewrite IH, insertCmp_length. lia. }
  now rewrite Hgen.
Qed.

Lemma scanStep_sound st file :
  scanSound st -> scanSound (scanStep st file).
Proof.
  unfold scanSound, scanStep. intros Hst.
  destruct (isSvgFileName (file_name file)); cbn [st_files st_fileMap];
    [|exact Hst].
  intros f Hin. apply List.in_app_or in Hin as [Hin|[<-|[]]].
  - destruct (Hst f Hin) as (Hmap & Hname & Hparent).
    split; [|now split].
    destruct (decide (path f
                      = match webkitRelativePath file with
                        | EmptyString => file_name file
                        | p => p
                        end)) as [->|Hne].
    + rewrite lookup_insert_eq. discriminate.
    + rewrite lookup_insert_ne by congruence. exact Hmap.
  - cbn [path name parentFolder]. rewrite lookup_insert_eq.
    repeat split. discriminate.
Qed.

Lemma scan_fold_sound fileList : forall st,
  scanSound st -> scanSound (List.fold_left scanStep fileList st).
Proof.
  induction fileList as [|file l IH]; intros st Hst; [exact Hst|].
  cbn [List.fold_left]. apply IH. now apply scanStep_sound.
Qed.

Lemma scan_fold_length fileList : forall st,
  length (st_files (List.fold_left scanStep fileList st))
  = (length (st_files st)
     + length (List.filter (fun file => isSvgFileName (file_name file)) fileList))%nat.
Proof.
  induction fileList as [|file l IH]; intros st; cbn [List.fold_left List.filter].
  - cbn [length]. lia.
  - rewrite IH. unfold scanStep.
    destruct (isSvgFileName (file_name file)); cbn [st_files length].
    + rewrite List.length_app. cbn [length]. lia.
    + reflexivity.
Qed.

(** X30.  Every file [scanFilesFromFileList] lists can be read from the
    file map it returns, carries the base name and the parent folder name
    of its path, and the list has one entry for every input file whose
    name ends in [.svg], in either case of the letters. *)
Theorem scanned_files_are_readable localeCompare fileList :
  let result := scanFilesFromFileList localeCompare fileList in
  (forall file, In file (scan_files result) ->
     (exists text, readFileFromMap (scan_fileMap result) (path file) = Ok text)
     /\ name file = getBasename (path file)
     /\ parentFolder file = getParentFolderName (path file))
  /\ length (scan_files result)
     = length (List.filter (fun file => isSvgFileName (file_name file)) fileList).
Proof.
  cbv zeta. unfold scanFilesFromFileList. cbn [scan_files scan_fileMap].
  split.
  - intros file Hin. apply sortCmp_In in Hin.
    assert (Hinit : scanSound {| st_files := []; st_fileMap := ∅;
                                 st_rootFolder := EmptyString |})
      by (intros f []).
    destruct (scan_fold_sound fileList _ Hinit file Hin)
      as (Hmap & Hname & Hparent).
    split; [|now split]. unfold readFileFromMap.
    destruct (_ !! path file) as [text|]; [now exists text|congruence].
  - now rewrite sortCmp_length, scan_fold_length.
Qed.
